(** * Clicker Challenge: the game engine, the score submission sequence and
      the local fallback store, embedded from the JavaScript sources.

    Conventions of the embedding.
    - JavaScript numbers that hold fractional quantities ([timeLeft], the
      thresholds, the interval delays) are IEEE 754 binary64 values: Rocq's
      primitive [float].  Counters and [Date.now()] readings are integers;
      they stay far below 2^53 and are modelled as [Z].
    - [setInterval]/[clearInterval] act on a table of active intervals keyed
      by the identifier the browser hands out (a fresh positive integer each
      time).  The closure of the countdown callback owns a mutable local
      ([count]); it is stored with the table entry.
    - A subscriber slot ([onStateChange], ...) is either [null] or a function;
      the model keeps whether a function is registered and appends what that
      function receives to the list [emitted], in call order.  The functions
      the App registers update the page and start the submission sequence;
      none of them calls back into the engine.
    - The event loop may run any active interval callback at any moment; this
      is the action [Fire id].  Every action carries the reading [now] that
      [Date.now()] would return while it runs. *)

From Stdlib Require Import ZArith Floats Bool List Lia.
From stdpp Require Import gmap strings pretty.

Open Scope Z_scope.

(* ------------------------------------------------------------------ *)
(** ** config.js *)

Module CONFIG.
Definition CONTRACT_ADDRESS : string := "0x08e2603548511aA1d1063Af007Cb2528D45c19CA".

Module GAME.
Definition DURATION : float := 10.0%float.           (* seconds *)
Definition TIMER_INTERVAL : float := 100%float.      (* milliseconds *)
Definition WARNING_THRESHOLD : float := 6.0%float.   (* seconds *)
Definition DANGER_THRESHOLD : float := 3.0%float.    (* seconds *)
Definition COUNTDOWN_START : Z := 3.                 (* seconds *)
Definition MIN_SCORE : Z := 1.
Definition MAX_SCORE : Z := 1000.
End GAME.
End CONFIG.

(** GAME_STATES *)
Inductive GameState := IDLE | COUNTDOWN | PLAYING | FINISHED.

#[global] Instance GameState_eq_dec : EqDecision GameState.
Proof. solve_decision. Defined.

(** CONNECTION_STATES *)
Inductive ConnectionState := DISCONNECTED | CONNECTING | CONNECTED | CONNECTION_ERROR.

(** ALERT_TYPES *)
Inductive AlertType := SUCCESS | ERROR | WARNING | INFO.

(* ------------------------------------------------------------------ *)
(** ** GameEngine.js *)

Inductive TimerStatus := danger | warning | normal.

(** The object handed to the [onTimerUpdate] subscriber. *)
Record TimerData := { td_timeLeft : float; td_status : TimerStatus }.

(** The object handed to the [onGameEnd] subscriber. *)
Record RoundResult := { score : Z; duration : float; timestamp : Z }.

Inductive Event :=
| StateChanged (s : GameState)
| TimerUpdated (d : TimerData)
| ClickCountUpdated (n : Z)
| CountdownTicked (count : Z)
| RoundEnded (r : RoundResult).

(** The two closures the engine passes to [setInterval]. *)
Inductive Callback :=
| CountdownCallback (count : Z)   (* captures the local [let count] *)
| TimerCallback.

Record Interval := { callback : Callback; delay : float }.

Record GameEngine := {
  state : GameState;
  clickCount : Z;
  timeLeft : float;
  timerInterval : option positive;
  countdownInterval : option positive;
  gameStartTime : option Z;
  onStateChange : bool;
  onTimerUpdate : bool;
  onClickCountUpdate : bool;
  onCountdownTick : bool;
  onGameEnd : bool
}.

(** The engine together with what it acts on: the interval table of the
    event loop and the subscribers' record of the calls they received. *)
Record World := {
  engine : GameEngine;
  timers : gmap positive Interval;
  nextId : positive;
  emitted : list Event
}.

Definition with_state (s : GameState) (e : GameEngine) : GameEngine :=
  {| state := s; clickCount := clickCount e; timeLeft := timeLeft e;
     timerInterval := timerInterval e; countdownInterval := countdownInterval e;
     gameStartTime := gameStartTime e; onStateChange := onStateChange e;
     onTimerUpdate := onTimerUpdate e; onClickCountUpdate := onClickCountUpdate e;
     onCountdownTick := onCountdownTick e; onGameEnd := onGameEnd e |}.

Definition with_clickCount (n : Z) (e : GameEngine) : GameEngine :=
  {| state := state e; clickCount := n; timeLeft := timeLeft e;
     timerInterval := timerInterval e; countdownInterval := countdownInterval e;
     gameStartTime := gameStartTime e; onStateChange := onStateChange e;
     onTimerUpdate := onTimerUpdate e; onClickCountUpdate := onClickCountUpdate e;
     onCountdownTick := onCountdownTick e; onGameEnd := onGameEnd e |}.

Definition with_timeLeft (t : float) (e : GameEngine) : GameEngine :=
  {| state := state e; clickCount := clickCount e; timeLeft := t;
     timerInterval := timerInterval e; countdownInterval := countdownInterval e;
     gameStartTime := gameStartTime e; onStateChange := onStateChange e;
     onTimerUpdate := onTimerUpdate e; onClickCountUpdate := onClickCountUpdate e;
     onCountdownTick := onCountdownTick e; onGameEnd := onGameEnd e |}.

Definition with_timerInterval (h : option positive) (e : GameEngine) : GameEngine :=
  {| state := state e; clickCount := clickCount e; timeLeft := timeLeft e;
     timerInterval := h; countdownInterval := countdownInterval e;
     gameStartTime := gameStartTime e; onStateChange := onStateChange e;
     onTimerUpdate := onTimerUpdate e; onClickCountUpdate := onClickCountUpdate e;
     onCountdownTick := onCountdownTick e; onGameEnd := onGameEnd e |}.

Definition with_countdownInterval (h : option positive) (e : GameEngine) : GameEngine :=
  {| state := state e; clickCount := clickCount e; timeLeft := timeLeft e;
     timerInterval := timerInterval e; countdownInterval := h;
     gameStartTime := gameStartTime e; onStateChange := onStateChange e;
     onTimerUpdate := onTimerUpdate e; onClickCountUpdate := onClickCountUpdate e;
     onCountdownTick := onCountdownTick e; onGameEnd := onGameEnd e |}.

Definition with_gameStartTime (t : option Z) (e : GameEngine) : GameEngine :=
  {| state := state e; clickCount := clickCount e; timeLeft := timeLeft e;
     timerInterval := timerInterval e; countdownInterval := countdownInterval e;
     gameStartTime := t; onStateChange := onStateChange e;
     onTimerUpdate := onTimerUpdate e; onClickCountUpdate := onClickCountUpdate e;
     onCountdownTick := onCountdownTick e; onGameEnd := onGameEnd e |}.

Definition with_handlers (sc tu cc ct ge : bool) (e : GameEngine) : GameEngine :=
  {| state := state e; clickCount := clickCount e; timeLeft := timeLeft e;
     timerInterval := timerInterval e; countdownInterval := countdownInterval e;
     gameStartTime := gameStartTime e; onStateChange := sc;
     onTimerUpdate := tu; onClickCountUpdate := cc;
     onCountdownTick := ct; onGameEnd := ge |}.

(** [this.<field> = ...] *)
Definition assign (f : GameEngine -> GameEngine) (w : World) : World :=
  {| engine := f (engine w); timers := timers w; nextId := nextId w;
     emitted := emitted w |}.

(** A subscriber is called with [ev]. *)
Definition notify (ev : Event) (w : World) : World :=
  {| engine := engine w; timers := timers w; nextId := nextId w;
     emitted := emitted w ++ [ev] |}.

(** [setInterval(cb, ms)]: registers the callback under a fresh identifier
    and returns it. *)
Definition setInterval (cb : Callback) (ms : float) (w : World) : positive * World :=
  (nextId w,
   {| engine := engine w;
      timers := <[nextId w := {| callback := cb; delay := ms |}]> (timers w);
      nextId := Pos.succ (nextId w);
      emitted := emitted w |}).

(** [clearInterval(h)]: [h] is an identifier or [null]; clearing [null] or
    an identifier that is no longer active does nothing. *)
Definition clearInterval (h : option positive) (w : World) : World :=
  match h with
  | Some id =>
      {| engine := engine w; timers := delete id (timers w);
         nextId := nextId w; emitted := emitted w |}
  | None => w
  end.

(** constructor() *)
Definition new_GameEngine : GameEngine :=
  {| state := IDLE; clickCount := 0; timeLeft := CONFIG.GAME.DURATION;
     timerInterval := None; countdownInterval := None; gameStartTime := None;
     onStateChange := false; onTimerUpdate := false;
     onClickCountUpdate := false; onCountdownTick := false;
     onGameEnd := false |}.

Definition new_World : World :=
  {| engine := new_GameEngine; timers := ∅; nextId := 1%positive; emitted := [] |}.

(** getTimerStatus() *)
Definition getTimerStatus (e : GameEngine) : TimerStatus :=
  if (timeLeft e <=? CONFIG.GAME.DANGER_THRESHOLD)%float then danger
  else if (timeLeft e <=? CONFIG.GAME.WARNING_THRESHOLD)%float then warning
  else normal.

(** _emitStateChange() *)
Definition _emitStateChange (w : World) : World :=
  if onStateChange (engine w) then notify (StateChanged (state (engine w))) w else w.

(** _emitTimerUpdate() *)
Definition _emitTimerUpdate (w : World) : World :=
  if onTimerUpdate (engine w)
  then notify (TimerUpdated {| td_timeLeft := timeLeft (engine w);
                               td_status := getTimerStatus (engine w) |}) w
  else w.

(** _emitClickCountUpdate() *)
Definition _emitClickCountUpdate (w : World) : World :=
  if onClickCountUpdate (engine w)
  then notify (ClickCountUpdated (clickCount (engine w))) w else w.

(** _emitCountdownTick(count) *)
Definition _emitCountdownTick (count : Z) (w : World) : World :=
  if onCountdownTick (engine w) then notify (CountdownTicked count) w else w.

(** endGame() *)
Definition endGame (now : Z) (w : World) : World :=
  if decide (state (engine w) <> PLAYING) then w
  else
    let w := match timerInterval (engine w) with
             | Some id => assign (with_timerInterval None) (clearInterval (Some id) w)
             | None => w
             end in
    let w := assign (with_state FINISHED) w in
    let w := assign (with_timeLeft 0%float) w in
    let w := _emitStateChange w in
    let w := _emitTimerUpdate w in
    if onGameEnd (engine w)
    then notify (RoundEnded {| score := clickCount (engine w);
                               duration := CONFIG.GAME.DURATION;
                               timestamp := now |}) w
    else w.

(** The body of the arrow function given to [setInterval] in
    [startGameplay]. *)
Definition timerTick (now : Z) (w : World) : World :=
  let w := assign (fun e =>
             with_timeLeft (timeLeft e - CONFIG.GAME.TIMER_INTERVAL / 1000)%float e) w in
  let w := if (timeLeft (engine w) <=? 0)%float
           then endGame now (assign (with_timeLeft 0%float) w)
           else w in
  _emitTimerUpdate w.

(** startGameplay() *)
Definition startGameplay (now : Z) (w : World) : World :=
  let w := assign (with_state PLAYING) w in
  let w := assign (with_clickCount 0) w in
  let w := assign (with_timeLeft CONFIG.GAME.DURATION) w in
  let w := assign (with_gameStartTime (Some now)) w in
  let w := _emitStateChange w in
  let w := _emitClickCountUpdate w in
  let w := _emitTimerUpdate w in
  let '(id, w) := setInterval TimerCallback CONFIG.GAME.TIMER_INTERVAL w in
  assign (with_timerInterval (Some id)) w.

(** [count--] inside the countdown closure registered as [self]: the
    captured local is shared by all later runs of that closure. *)
Definition set_captured_count (self : positive) (count : Z) (w : World) : World :=
  {| engine := engine w;
     timers := alter (fun i => {| callback := CountdownCallback count;
                                  delay := delay i |}) self (timers w);
     nextId := nextId w; emitted := emitted w |}.

(** The body of the arrow function given to [setInterval] in
    [startCountdown]; [count] is the value of the captured local when the
    callback starts. *)
Definition countdownTick (now : Z) (self : positive) (count : Z) (w : World) : World :=
  let count := count - 1 in
  let w := set_captured_count self count w in
  if 0 <? count then _emitCountdownTick count w
  else
    let w := clearInterval (countdownInterval (engine w)) w in
    let w := assign (with_countdownInterval None) w in
    startGameplay now w.

(** startCountdown() *)
Definition startCountdown (w : World) : World :=
  if decide (state (engine w) <> IDLE) then w   (* console.warn; return *)
  else
    let w := assign (with_state COUNTDOWN) w in
    let w := _emitStateChange w in
    let count := CONFIG.GAME.COUNTDOWN_START in
    let w := _emitCountdownTick count w in
    let '(id, w) := setInterval (CountdownCallback count) 1000%float w in
    assign (with_countdownInterval (Some id)) w.

(** registerClick(): returns the click count and the new world. *)
Definition registerClick (w : World) : Z * World :=
  if decide (state (engine w) <> PLAYING) then (clickCount (engine w), w)
  else
    let w := assign (fun e => with_clickCount (clickCount e + 1) e) w in
    let w := _emitClickCountUpdate w in
    (clickCount (engine w), w).

(** reset() *)
Definition reset (w : World) : World :=
  let w := match timerInterval (engine w) with
           | Some id => assign (with_timerInterval None) (clearInterval (Some id) w)
           | None => w
           end in
  let w := match countdownInterval (engine w) with
           | Some id => assign (with_countdownInterval None) (clearInterval (Some id) w)
           | None => w
           end in
  let w := assign (with_state IDLE) w in
  let w := assign (with_clickCount 0) w in
  let w := assign (with_timeLeft CONFIG.GAME.DURATION) w in
  let w := assign (with_gameStartTime None) w in
  _emitStateChange w.

(** destroy() *)
Definition destroy (w : World) : World :=
  let w := match timerInterval (engine w) with
           | Some id => clearInterval (Some id) w
           | None => w
           end in
  let w := match countdownInterval (engine w) with
           | Some id => clearInterval (Some id) w
           | None => w
           end in
  assign (with_handlers false false false false false) w.

(** The five [setOn...] methods; the argument says whether the handler
    passed is a function ([true]) or [null] ([false]). *)
Definition setOnStateChange (h : bool) (w : World) : World :=
  assign (fun e => with_handlers h (onTimerUpdate e) (onClickCountUpdate e)
                     (onCountdownTick e) (onGameEnd e) e) w.
Definition setOnTimerUpdate (h : bool) (w : World) : World :=
  assign (fun e => with_handlers (onStateChange e) h (onClickCountUpdate e)
                     (onCountdownTick e) (onGameEnd e) e) w.
Definition setOnClickCountUpdate (h : bool) (w : World) : World :=
  assign (fun e => with_handlers (onStateChange e) (onTimerUpdate e) h
                     (onCountdownTick e) (onGameEnd e) e) w.
Definition setOnCountdownTick (h : bool) (w : World) : World :=
  assign (fun e => with_handlers (onStateChange e) (onTimerUpdate e)
                     (onClickCountUpdate e) h (onGameEnd e) e) w.
Definition setOnGameEnd (h : bool) (w : World) : World :=
  assign (fun e => with_handlers (onStateChange e) (onTimerUpdate e)
                     (onClickCountUpdate e) (onCountdownTick e) h e) w.

(** Integers as binary64 values (exact below 2^53). *)
Definition Z2float (z : Z) : float :=
  SF2Prim (binary_normalize prec emax z 0 false).

(** The [duration] local of getGameStats(): wall-clock seconds since the
    round's [gameStartTime]; 0 when [gameStartTime] is falsy (null, or the
    reading 0). *)
Definition elapsedSeconds (now : Z) (e : GameEngine) : float :=
  match gameStartTime e with
  | Some t0 => if decide (t0 = 0) then 0%float
               else (Z2float (now - t0) / 1000)%float
  | None => 0%float
  end.

(** What the event loop and the callers of the engine can do. *)
Inductive Action :=
| StartCountdown
| StartGameplay
| RegisterClick
| EndGame
| Reset
| Destroy
| SetOnStateChange (h : bool)
| SetOnTimerUpdate (h : bool)
| SetOnClickCountUpdate (h : bool)
| SetOnCountdownTick (h : bool)
| SetOnGameEnd (h : bool)
| Fire (id : positive).

(** The event loop runs the callback of interval [id]; a cancelled or
    unknown interval runs nothing. *)
Definition fire (now : Z) (id : positive) (w : World) : World :=
  match timers w !! id with
  | Some {| callback := CountdownCallback count |} => countdownTick now id count w
  | Some {| callback := TimerCallback |} => timerTick now w
  | None => w
  end.

Definition step (now : Z) (a : Action) (w : World) : World :=
  match a with
  | StartCountdown => startCountdown w
  | StartGameplay => startGameplay now w
  | RegisterClick => snd (registerClick w)
  | EndGame => endGame now w
  | Reset => reset w
  | Destroy => destroy w
  | SetOnStateChange h => setOnStateChange h w
  | SetOnTimerUpdate h => setOnTimerUpdate h w
  | SetOnClickCountUpdate h => setOnClickCountUpdate h w
  | SetOnCountdownTick h => setOnCountdownTick h w
  | SetOnGameEnd h => setOnGameEnd h w
  | Fire id => fire now id w
  end.

Fixpoint run (acts : list (Z * Action)) (w : World) : World :=
  match acts with
  | [] => w
  | (now, a) :: rest => run rest (step now a w)
  end.

(** Worlds reachable from a new engine through the public methods and
    interval firings. *)
Inductive reachable : World -> Prop :=
| reachable_new : reachable new_World
| reachable_step now a w : reachable w -> reachable (step now a w).

(* ------------------------------------------------------------------ *)
(** ** The ledger and the browser's localStorage, as the scripts see them *)

(** A call that leaves the page for the ledger contract. *)
Inductive NetCall :=
| ContractSubmitScore (clicks : Z)
| ContractGetPlayerStats (player : string).

(** The error object a rejected contract call throws; an empty string
    stands for a missing (falsy) property. *)
Record JsError := { reason : string; message : string }.

Inductive TxOutcome :=
| TxMined (transactionHash : string)
| TxThrown (err : JsError).

(** {totalScores, bestScore, totalClicks}: the shape of the ledger's
    getPlayerStats answer and of the stats object kept in localStorage. *)
Record PlayerStats := { totalScores : Z; bestScore : Z; totalClicks : Z }.

(** How the ledger answers; the scripts cannot influence it. *)
Record Ledger := {
  submitScore_reply : Z -> TxOutcome;
  getPlayerStats_reply : string -> PlayerStats + JsError
}.

(** What is stored under CONFIG.STORAGE_KEYS.PLAYER_STATS.  The only writer
    of the key is saveDemoStats, so a text that JSON.parse accepts is taken
    to be the serialisation of a stats object; a text on which JSON.parse
    throws (or the empty string, which is falsy) is [Garbage].  A text put
    there by hand that parses to something else (null, a number) is not
    represented. *)
Inductive StoredText :=
| StatsJson (s : PlayerStats)
| Garbage.

(** localStorage, restricted to that key; [None] is an absent key.  Writes
    are taken to succeed (a write that throws is caught and logged by
    saveDemoStats and is outside this model). *)
Definition LocalStorage := option StoredText.

Definition or_else (a b : string) : string :=
  match a with EmptyString => b | _ => a end.

(** [a || b] on two texts that may be null: null and the empty string are
    falsy, so [b] is taken in their place. *)
Definition first_truthy (a b : option string) : option string :=
  match a with
  | Some EmptyString | None => b
  | Some _ => a
  end.

(* ------------------------------------------------------------------ *)
(** ** Web3Service.js *)

Module Web3Service.

Record t := {
  contract : option string;        (* the ethers.Contract, by its address *)
  walletAddress : option string;
  state : ConnectionState;
  isDemoMode : bool
}.

Record SubmitResult := { success : bool; txHash : option string; error : option string }.

Record StatsResult := { s_success : bool; stats : option PlayerStats; s_error : option string }.

(** constructor() *)
Definition new : t :=
  {| contract := None; walletAddress := None; state := DISCONNECTED;
     isDemoMode := false |}.

(** isConnected() *)
Definition isConnected (ws : t) : bool :=
  match state ws, walletAddress ws with
  | CONNECTED, Some _ => true
  | _, _ => false
  end.

(** _initializeContract(), with the configured address as argument. *)
Definition _initializeContract (address : string) (ws : t) : t :=
  if decide (address = "YOUR_CONTRACT_ADDRESS_HERE")
  then {| contract := None; walletAddress := walletAddress ws;
          state := state ws; isDemoMode := true |}
  else {| contract := Some address; walletAddress := walletAddress ws;
          state := state ws; isDemoMode := false |}.

Definition invalid_score_message : string :=
  "Invalid score. Must be between " +:+ pretty CONFIG.GAME.MIN_SCORE
    +:+ " and " +:+ pretty CONFIG.GAME.MAX_SCORE.

(** submitScore(score): the result and the contract calls made. *)
Definition submitScore (net : Ledger) (score : Z) (ws : t)
  : SubmitResult * list NetCall :=
  if isDemoMode ws || negb (bool_decide (is_Some (contract ws)))
  then ({| success := false; txHash := None;
           error := Some "Contract not available. Running in demo mode." |}, [])
  else if (score <? CONFIG.GAME.MIN_SCORE) || (score >? CONFIG.GAME.MAX_SCORE)
  then ({| success := false; txHash := None;
           error := Some invalid_score_message |}, [])
  else
    match submitScore_reply net score with
    | TxMined h =>
        ({| success := true; txHash := Some h; error := None |},
         [ContractSubmitScore score])
    | TxThrown e =>
        ({| success := false; txHash := None;
            error := Some (or_else (reason e)
                             (or_else (message e) "Failed to submit score")) |},
         [ContractSubmitScore score])
    end.

(** getPlayerStats(address = null) *)
Definition getPlayerStats (net : Ledger) (address : option string) (ws : t)
  : StatsResult * list NetCall :=
  let targetAddress := first_truthy address (walletAddress ws) in
  match targetAddress with
  | None | Some EmptyString =>          (* !targetAddress *)
      ({| s_success := false; stats := None;
          s_error := Some "No wallet address available" |}, [])
  | Some target =>
      if isDemoMode ws || negb (bool_decide (is_Some (contract ws)))
      then ({| s_success := false; stats := None;
               s_error := Some "Contract not available" |}, [])
      else
        match getPlayerStats_reply net target with
        | inl st => ({| s_success := true; stats := Some st; s_error := None |},
                     [ContractGetPlayerStats target])
        | inr e => ({| s_success := false; stats := None;
                       s_error := Some (or_else (message e)
                                          "Failed to load player stats") |},
                    [ContractGetPlayerStats target])
        end
  end.

End Web3Service.

(* ------------------------------------------------------------------ *)
(** ** UIController.js *)

Module UIController.

(** The text content and the flags of the elements the modelled methods
    write. *)
Record t := {
  bestScore_text : string;
  totalGames_text : string;
  totalClicks_text : string;
  onChainScores_text : string;
  gameStatus_text : string;
  storageStatus_text : string;
  startBtn_disabled : bool;
  alerts : list (string * AlertType)
}.

Definition defaultStats : PlayerStats :=
  {| totalScores := 0; bestScore := 0; totalClicks := 0 |}.

(** _loadDemoStats() *)
Definition _loadDemoStats (ls : LocalStorage) : PlayerStats :=
  match ls with
  | Some (StatsJson s) => s
  | Some Garbage => defaultStats      (* falsy text, or JSON.parse throws *)
  | None => defaultStats
  end.

(** updateStatsDemo() *)
Definition updateStatsDemo (ls : LocalStorage) (ui : t) : t :=
  let demoStats := _loadDemoStats ls in
  {| bestScore_text := pretty (bestScore demoStats);
     totalGames_text := pretty (totalScores demoStats);
     totalClicks_text := pretty (totalClicks demoStats);
     onChainScores_text := "0 (Demo)";
     gameStatus_text := gameStatus_text ui;
     storageStatus_text := storageStatus_text ui;
     startBtn_disabled := startBtn_disabled ui;
     alerts := alerts ui |}.

(** [n || '0'] rendered as text *)
Definition text_or_zero (n : Z) : string :=
  if decide (n = 0) then "0" else pretty n.

(** updateStats(stats) *)
Definition updateStats (st : PlayerStats) (ui : t) : t :=
  {| bestScore_text := text_or_zero (bestScore st);
     totalGames_text := text_or_zero (totalScores st);
     totalClicks_text := text_or_zero (totalClicks st);
     onChainScores_text := text_or_zero (totalScores st);
     gameStatus_text := gameStatus_text ui;
     storageStatus_text := storageStatus_text ui;
     startBtn_disabled := startBtn_disabled ui;
     alerts := alerts ui |}.

(** saveDemoStats(score): the new content of localStorage and the new
    display. *)
Definition saveDemoStats (score : Z) (ls : LocalStorage) (ui : t)
  : LocalStorage * t :=
  let stats := _loadDemoStats ls in
  let stats := {| totalScores := totalScores stats + 1;
                  bestScore := bestScore stats;
                  totalClicks := totalClicks stats |} in
  let stats := {| totalScores := totalScores stats;
                  bestScore := bestScore stats;
                  totalClicks := totalClicks stats + score |} in
  let stats := if score >? bestScore stats
               then {| totalScores := totalScores stats;
                       bestScore := score;
                       totalClicks := totalClicks stats |}
               else stats in
  let ls := Some (StatsJson stats) in
  (ls, updateStatsDemo ls ui).

(** updateGameStatus(message) *)
Definition updateGameStatus (msg : string) (ui : t) : t :=
  {| bestScore_text := bestScore_text ui; totalGames_text := totalGames_text ui;
     totalClicks_text := totalClicks_text ui;
     onChainScores_text := onChainScores_text ui;
     gameStatus_text := msg; storageStatus_text := storageStatus_text ui;
     startBtn_disabled := startBtn_disabled ui; alerts := alerts ui |}.

(** updateStorageStatus(message) *)
Definition updateStorageStatus (msg : string) (ui : t) : t :=
  {| bestScore_text := bestScore_text ui; totalGames_text := totalGames_text ui;
     totalClicks_text := totalClicks_text ui;
     onChainScores_text := onChainScores_text ui;
     gameStatus_text := gameStatus_text ui; storageStatus_text := msg;
     startBtn_disabled := startBtn_disabled ui; alerts := alerts ui |}.

(** setStartButtonEnabled(enabled) *)
Definition setStartButtonEnabled (enabled : bool) (ui : t) : t :=
  {| bestScore_text := bestScore_text ui; totalGames_text := totalGames_text ui;
     totalClicks_text := totalClicks_text ui;
     onChainScores_text := onChainScores_text ui;
     gameStatus_text := gameStatus_text ui;
     storageStatus_text := storageStatus_text ui;
     startBtn_disabled := negb enabled; alerts := alerts ui |}.

(** showAlert(message, type): the alert is appended to the container (its
    timed removal is not modelled). *)
Definition showAlert (msg : string) (ty : AlertType) (ui : t) : t :=
  {| bestScore_text := bestScore_text ui; totalGames_text := totalGames_text ui;
     totalClicks_text := totalClicks_text ui;
     onChainScores_text := onChainScores_text ui;
     gameStatus_text := gameStatus_text ui;
     storageStatus_text := storageStatus_text ui;
     startBtn_disabled := startBtn_disabled ui;
     alerts := alerts ui ++ [(msg, ty)] |}.

End UIController.

(* ------------------------------------------------------------------ *)
(** ** app.js *)

Module App.

(** The orchestrator's collaborators that the submission sequence touches,
    with the browser's localStorage and the contract calls made so far. *)
Record t := {
  web3Service : Web3Service.t;
  uiController : UIController.t;
  localStorage : LocalStorage;
  network : list NetCall
}.

Definition with_ui (f : UIController.t -> UIController.t) (a : t) : t :=
  {| web3Service := web3Service a; uiController := f (uiController a);
     localStorage := localStorage a; network := network a |}.

Definition called (calls : list NetCall) (a : t) : t :=
  {| web3Service := web3Service a; uiController := uiController a;
     localStorage := localStorage a; network := network a ++ calls |}.

(** [this.web3Service.isDemoMode || !this.web3Service.contract] *)
Definition fallback_mode (a : t) : bool :=
  Web3Service.isDemoMode (web3Service a)
  || negb (bool_decide (is_Some (Web3Service.contract (web3Service a)))).

Definition zeroStats : PlayerStats :=
  {| totalScores := 0; bestScore := 0; totalClicks := 0 |}.

(** _loadPlayerStats() *)
Definition _loadPlayerStats (net : Ledger) (a : t) : t :=
  if fallback_mode a
  then with_ui (UIController.updateStatsDemo (localStorage a)) a
  else
    let '(result, calls) := Web3Service.getPlayerStats net None (web3Service a) in
    let a := called calls a in
    match Web3Service.s_success result, Web3Service.stats result with
    | true, Some st => with_ui (UIController.updateStats st) a
    | _, _ => with_ui (UIController.updateStats zeroStats) a
    end.

(** _submitScore(score) *)
Definition _submitScore (net : Ledger) (score : Z) (a : t) : t :=
  if fallback_mode a
  then
    let '(ls, ui) := UIController.saveDemoStats score (localStorage a)
                       (uiController a) in
    let a := {| web3Service := web3Service a; uiController := ui;
                localStorage := ls; network := network a |} in
    let a := with_ui (UIController.updateStorageStatus
                        "✅ Score saved locally (demo mode)") a in
    with_ui (UIController.setStartButtonEnabled true) a
  else if decide (score = 0)
  then
    let a := with_ui (UIController.updateStorageStatus
                        "No score to submit (0 clicks)") a in
    let a := with_ui (UIController.showAlert
                        "Play again and click to submit a score!" INFO) a in
    with_ui (UIController.setStartButtonEnabled true) a
  else
    let a := with_ui (UIController.updateGameStatus "Storing on blockchain...") a in
    let a := with_ui (UIController.updateStorageStatus "Storing on blockchain...") a in
    let '(result, calls) := Web3Service.submitScore net score (web3Service a) in
    let a := called calls a in
    let a :=
      if Web3Service.success result
      then
        let a := with_ui (UIController.updateStorageStatus
                            "✅ Score stored on-chain!") a in
        let a := with_ui (UIController.showAlert
                            "Score successfully stored on blockchain!" SUCCESS) a in
        _loadPlayerStats net a
      else
        let a := with_ui (UIController.updateStorageStatus
                            "❌ Failed to store score") a in
        with_ui (UIController.showAlert
                   ("Failed to submit score: "
                      +:+ default "null" (Web3Service.error result)) ERROR) a in
    let a := with_ui (UIController.setStartButtonEnabled true) a in
    with_ui (UIController.updateGameStatus "Ready to play!") a.

End App.

(* ------------------------------------------------------------------ *)
(** ** Notions used to state the properties *)

(** The payloads the [onGameEnd] subscriber received. *)
Definition round_ends (evs : list Event) : list RoundResult :=
  omap (fun ev => match ev with RoundEnded r => Some r | _ => None end) evs.

(** The payloads the [onTimerUpdate] subscriber received. *)
Definition timer_updates (evs : list Event) : list TimerData :=
  omap (fun ev => match ev with TimerUpdated d => Some d | _ => None end) evs.

(** The values the [onCountdownTick] subscriber received. *)
Definition countdown_ticks (evs : list Event) : list Z :=
  omap (fun ev => match ev with CountdownTicked c => Some c | _ => None end) evs.

(** What the subscribers received during one action. *)
Definition emitted_by (now : Z) (a : Action) (w : World) : list Event :=
  drop (length (emitted w)) (emitted (step now a w)).

Definition is_countdown (i : Interval) : bool :=
  match callback i with CountdownCallback _ => true | TimerCallback => false end.

Definition is_decrement (i : Interval) : bool :=
  match callback i with TimerCallback => true | CountdownCallback _ => false end.

(** A countdown schedule is active. *)
Definition countdown_active (w : World) : bool :=
  existsb (fun p => is_countdown (snd p)) (map_to_list (timers w)).

(** A decrement schedule is active. *)
Definition decrement_active (w : World) : bool :=
  existsb (fun p => is_decrement (snd p)) (map_to_list (timers w)).


(** All subscribers registered, as App._setupGameEngineCallbacks does. *)
Definition subscribe_all : list (Z * Action) :=
  [(0, SetOnStateChange true); (0, SetOnTimerUpdate true);
   (0, SetOnClickCountUpdate true); (0, SetOnCountdownTick true);
   (0, SetOnGameEnd true)].

(** [n] consecutive runs of the callback of interval [id], [period]
    milliseconds apart, the first at [now]. *)
Fixpoint fire_every (period : Z) (id : positive) (n : nat) (now : Z)
  : list (Z * Action) :=
  match n with
  | O => []
  | S k => (now, Fire id) :: fire_every period id k (now + period)
  end.

(** The action is an outside call of startGameplay() made while some
    schedule is still active. *)
Definition overlapping_start (a : Action) (w : World) : Prop :=
  a = StartGameplay /\ timers w <> ∅.

(** Worlds reachable from a new engine when startGameplay() is entered from
    outside only while no schedule is active (the engine itself enters it
    from the countdown callback, after cancelling the countdown). *)
Inductive reachable_in_order : World -> Prop :=
| in_order_new : reachable_in_order new_World
| in_order_step now a w :
    reachable_in_order w -> ~ overlapping_start a w ->
    reachable_in_order (step now a w).

(** Along [acts], startGameplay() is called from outside only while no
    schedule is active. *)
Fixpoint in_order (acts : list (Z * Action)) (w : World) : bool :=
  match acts with
  | [] => true
  | (now, a) :: rest =>
      (match a with
       | StartGameplay => bool_decide (timers w = ∅)
       | _ => true
       end) && in_order rest (step now a w)
  end.

(** The actions that belong to a Playing phase once it was entered: clicks,
    runs of decrement callbacks, endGame(), destroy() and subscriptions. *)
Definition phase_action (a : Action) (w : World) : bool :=
  match a with
  | StartCountdown | StartGameplay | Reset => false
  | Fire id =>
      match timers w !! id with
      | Some i => is_decrement i
      | None => true
      end
  | _ => true
  end.

Fixpoint in_phase (acts : list (Z * Action)) (w : World) : bool :=
  match acts with
  | [] => true
  | (now, a) :: rest => phase_action a w && in_phase rest (step now a w)
  end.

(** The number of registerClick() calls of [acts] made while the engine is
    Playing. *)
Fixpoint clicks_while_playing (acts : list (Z * Action)) (w : World) : Z :=
  match acts with
  | [] => 0
  | (now, a) :: rest =>
      (match a with
       | RegisterClick => if decide (state (engine w) = PLAYING) then 1 else 0
       | _ => 0
       end) + clicks_while_playing rest (step now a w)
  end.

(** The event a subscriber slot passes on: nothing when the slot is null. *)
Definition opt_event (b : bool) (ev : Event) : list Event :=
  if b then [ev] else [].

(** The interval table after [clearInterval(h)]. *)
Definition without (h : option positive) (tm : gmap positive Interval)
  : gmap positive Interval :=
  match h with Some id => delete id tm | None => tm end.

(** The engine's fields once the body of endGame() has run. *)
Definition finished_engine (e : GameEngine) : GameEngine :=
  {| state := FINISHED; clickCount := clickCount e; timeLeft := 0%float;
     timerInterval := None; countdownInterval := countdownInterval e;
     gameStartTime := gameStartTime e; onStateChange := onStateChange e;
     onTimerUpdate := onTimerUpdate e; onClickCountUpdate := onClickCountUpdate e;
     onCountdownTick := onCountdownTick e; onGameEnd := onGameEnd e |}.

(** The engine's fields once the body of startGameplay() has run and the
    new interval got the identifier [id]. *)
Definition playing_engine (now : Z) (id : positive) (e : GameEngine) : GameEngine :=
  {| state := PLAYING; clickCount := 0; timeLeft := CONFIG.GAME.DURATION;
     timerInterval := Some id; countdownInterval := countdownInterval e;
     gameStartTime := Some now; onStateChange := onStateChange e;
     onTimerUpdate := onTimerUpdate e; onClickCountUpdate := onClickCountUpdate e;
     onCountdownTick := onCountdownTick e; onGameEnd := onGameEnd e |}.

(** The engine's fields once the body of reset() has run. *)
Definition idle_engine (e : GameEngine) : GameEngine :=
  {| state := IDLE; clickCount := 0; timeLeft := CONFIG.GAME.DURATION;
     timerInterval := None; countdownInterval := None;
     gameStartTime := None; onStateChange := onStateChange e;
     onTimerUpdate := onTimerUpdate e; onClickCountUpdate := onClickCountUpdate e;
     onCountdownTick := onCountdownTick e; onGameEnd := onGameEnd e |}.

(** [timeLeft - CONFIG.GAME.TIMER_INTERVAL / 1000] *)
Definition decremented (e : GameEngine) : float :=
  (timeLeft e - CONFIG.GAME.TIMER_INTERVAL / 1000)%float.

(** Every active interval was created before [nextId]. *)
Definition ids_fresh (w : World) : Prop :=
  forall id, is_Some (timers w !! id) -> (id < nextId w)%positive.


(** One schedule at a time, and the engine holds its handle: no interval is
    active, or the only one is the countdown of the Countdown state, or the
    only one is the decrement schedule of the Playing state. *)
Definition one_schedule (w : World) : Prop :=
  timers w = ∅
  \/ (exists id c d,
        timers w = {[ id := {| callback := CountdownCallback c; delay := d |} ]}
        /\ countdownInterval (engine w) = Some id
        /\ state (engine w) = COUNTDOWN)
  \/ (exists id d,
        timers w = {[ id := {| callback := TimerCallback; delay := d |} ]}
        /\ timerInterval (engine w) = Some id
        /\ state (engine w) = PLAYING).

(** Interval firings as actions: each pair is the clock reading and the
    interval whose callback runs. *)
Definition firings (l : list (Z * positive)) : list (Z * Action) :=
  map (fun p => (p.1, Fire p.2)) l.





(* ------------------------------------------------------------------ *)
(** ** Concrete runs *)

(** A new engine wired as the App wires it, then Start pressed at time 0. *)
Definition countdown_started : World :=
  run (subscribe_all ++ [(0, StartCountdown)]) new_World.

(** The three countdown callbacks at 1000, 2000 and 3000 ms: the round is
    entered at 3000 ms; its decrement schedule is interval 2. *)
Definition round_started : World :=
  run (fire_every 1000 1%positive 3 1000) countdown_started.

(** The round after [n] runs of the decrement callback, 100 ms apart. *)
Definition round_after (n : nat) : World :=
  run (fire_every 100 2%positive n 3100) round_started.

(** A new engine wired as the App wires it, nothing started. *)
Definition idle_subscribed : World := run subscribe_all new_World.

(** endGame() called from outside 2 s into the round. *)
Definition round_cut_short : World :=
  endGame 5000 round_started.

(** startGameplay() called from outside while the countdown runs. *)
Definition overlap_world : World :=
  run [(0, StartCountdown); (500, StartGameplay)] new_World.

(** startGameplay() called a second time 500 ms into the round, then
    reset() 500 ms later. *)
Definition orphan_world : World :=
  run [(3500, StartGameplay); (4000, Reset)] round_started.


(** A ledger that refuses every call. *)
Definition refusing_ledger : Ledger :=
  {| submitScore_reply := fun _ => TxThrown {| reason := "execution reverted";
                                                message := "" |};
     getPlayerStats_reply := fun _ => inr {| reason := ""; message := "" |} |}.

(** A ledger that accepts every score. *)
Definition accepting_ledger : Ledger :=
  {| submitScore_reply := fun _ => TxMined "0xabc";
     getPlayerStats_reply := fun _ => inl {| totalScores := 1; bestScore := 1;
                                             totalClicks := 1 |} |}.

(** A connected service with the configured contract attached. *)
Definition live_service : Web3Service.t :=
  Web3Service._initializeContract CONFIG.CONTRACT_ADDRESS
    {| Web3Service.contract := None; Web3Service.walletAddress := Some "0xf00";
       Web3Service.state := CONNECTED; Web3Service.isDemoMode := false |}.

Definition blank_ui : UIController.t :=
  {| UIController.bestScore_text := "0"; UIController.totalGames_text := "0";
     UIController.totalClicks_text := "0"; UIController.onChainScores_text := "0";
     UIController.gameStatus_text := ""; UIController.storageStatus_text := "";
     UIController.startBtn_disabled := true; UIController.alerts := [] |}.


Definition live_app (ls : LocalStorage) : App.t :=
  {| App.web3Service := live_service; App.uiController := blank_ui;
     App.localStorage := ls; App.network := [] |}.

(* ------------------------------------------------------------------ *)
(** ** SimpleClickerScores.sol

    The ledger contract the Web3Service calls.  A [uint256] is an integer in
    [0, 2^256); Solidity 0.8 arithmetic is checked, so a sum that leaves the
    range reverts the call.  A reverted call changes nothing.  A mapping
    reads as its zero value (0, the empty array) where nothing was
    written. *)

Module SimpleClickerScores.

Definition uint256_max : Z := 2 ^ 256 - 1.

Record ScoreEntry := { score : Z; timestamp : Z }.

Record Storage := {
  playerScores : gmap N (list ScoreEntry);
  playerBestScore : gmap N Z;
  playerTotalClicks : gmap N Z
}.

(** event ScoreSubmitted(address indexed player, uint256 score, uint256 timestamp) *)
Inductive Log := ScoreSubmitted (player : N) (clicks : Z) (time : Z).

Inductive Result (A : Type) :=
| Ok (a : A)
| Revert (reason : string).
Arguments Ok {A} a.
Arguments Revert {A} reason.

(** The storage of a freshly deployed contract. *)
Definition deployed : Storage :=
  {| playerScores := ∅; playerBestScore := ∅; playerTotalClicks := ∅ |}.

(** playerScores[p] *)
Definition scoresOf (p : N) (s : Storage) : list ScoreEntry :=
  default [] (playerScores s !! p).

(** playerBestScore[p] *)
Definition bestOf (p : N) (s : Storage) : Z :=
  default 0 (playerBestScore s !! p).

(** playerTotalClicks[p] *)
Definition totalOf (p : N) (s : Storage) : Z :=
  default 0 (playerTotalClicks s !! p).

(** submitScore(uint256 _clicks), called by [msg_sender] in a block stamped
    [block_timestamp]: the new storage and the events logged. *)
Definition submitScore (msg_sender : N) (block_timestamp : Z) (_clicks : Z)
    (s : Storage) : Result (Storage * list Log) :=
  if negb ((_clicks >? 0) && (_clicks <=? 1000)) then Revert "Invalid score"
  else
    let scores := scoresOf msg_sender s
                  ++ [ {| score := _clicks; timestamp := block_timestamp |} ] in
    let best := if _clicks >? bestOf msg_sender s then _clicks
                else bestOf msg_sender s in
    let total := totalOf msg_sender s + _clicks in
    if total >? uint256_max then Revert "Panic(0x11)"
    else
      Ok ({| playerScores := <[msg_sender := scores]> (playerScores s);
             playerBestScore := <[msg_sender := best]> (playerBestScore s);
             playerTotalClicks := <[msg_sender := total]> (playerTotalClicks s) |},
          [ScoreSubmitted msg_sender _clicks block_timestamp]).

(** getPlayerScores(address _player): a new array of [length] zeros whose
    slots are assigned one by one. *)
Definition getPlayerScores (_player : N) (s : Storage) : list Z :=
  let length := length (scoresOf _player s) in
  let scores := replicate length 0 in
  foldl (fun scores i =>
           <[ i := default 0 (score <$> scoresOf _player s !! i) ]> scores)
        scores (seq 0 length).

(** getPlayerStats(address _player): (totalScores, bestScore, totalClicks) *)
Definition getPlayerStats (_player : N) (s : Storage) : Z * Z * Z :=
  (Z.of_nat (length (scoresOf _player s)), bestOf _player s, totalOf _player s).

(** getScoreAtIndex(address _player, uint256 _index): (score, timestamp) *)
Definition getScoreAtIndex (_player : N) (_index : Z) (s : Storage)
  : Result (Z * Z) :=
  if negb (_index <? Z.of_nat (length (scoresOf _player s)))
  then Revert "Index out of bounds"
  else match scoresOf _player s !! Z.to_nat _index with
       | Some entry => Ok (score entry, timestamp entry)
       | None => Revert "Panic(0x32)"
       end.

(** getScoreCount(address _player) *)
Definition getScoreCount (_player : N) (s : Storage) : Z :=
  Z.of_nat (length (scoresOf _player s)).

(** A transaction calling submitScore. *)
Record Tx := { tx_sender : N; tx_time : Z; tx_clicks : Z }.

(** The storage after the transaction: a reverted one leaves it as it was. *)
Definition exec (tx : Tx) (s : Storage) : Storage :=
  match submitScore (tx_sender tx) (tx_time tx) (tx_clicks tx) s with
  | Ok (s', _) => s'
  | Revert _ => s
  end.

(** The transaction is mined without reverting. *)
Definition accepted (tx : Tx) (s : Storage) : bool :=
  match submitScore (tx_sender tx) (tx_time tx) (tx_clicks tx) s with
  | Ok _ => true
  | Revert _ => false
  end.

Fixpoint exec_all (txs : list Tx) (s : Storage) : Storage :=
  match txs with
  | [] => s
  | tx :: rest => exec_all rest (exec tx s)
  end.

(** The entries the accepted transactions of [p] leave, in order. *)
Fixpoint accepted_entries (p : N) (txs : list Tx) (s : Storage) : list ScoreEntry :=
  match txs with
  | [] => []
  | tx :: rest =>
      (if accepted tx s && bool_decide (tx_sender tx = p)
       then [ {| score := tx_clicks tx; timestamp := tx_time tx |} ]
       else [])
      ++ accepted_entries p rest (exec tx s)
  end.

(** The largest score of a list of entries, 0 for none. *)
Definition max_score (l : list ScoreEntry) : Z :=
  foldr (fun e m => Z.max (score e) m) 0 l.

(** The sum of the scores of a list of entries. *)
Definition sum_scores (l : list ScoreEntry) : Z :=
  foldr (fun e m => score e + m) 0 l.

(** Per player: every recorded score is in [1, 1000], the best score is the
    largest recorded score and the total is their sum. *)
Definition ledger_consistent (s : Storage) : Prop :=
  forall p,
    Forall (fun e => 0 < score e <= 1000) (scoresOf p s)
    /\ bestOf p s = max_score (scoresOf p s)
    /\ totalOf p s = sum_scores (scoresOf p s).

End SimpleClickerScores.

(* ------------------------------------------------------------------ *)
(** ** Notions for further properties of the engine *)

(** The classification getTimerStatus() applies, as a function of the
    value classified. *)
Definition status_of (t : float) : TimerStatus :=
  if (t <=? CONFIG.GAME.DANGER_THRESHOLD)%float then danger
  else if (t <=? CONFIG.GAME.WARNING_THRESHOLD)%float then warning
  else normal.

(** A timer update carries the classification of the value it carries. *)
Definition status_matches (ev : Event) : Prop :=
  match ev with
  | TimerUpdated d => td_status d = status_of (td_timeLeft d)
  | _ => True
  end.

(** A countdown tick carries a value from 1 to the configured start. *)
Definition countdown_in_range (ev : Event) : Prop :=
  match ev with
  | CountdownTicked c => 1 <= c <= CONFIG.GAME.COUNTDOWN_START
  | _ => True
  end.

(** The closure's captured count is at most the configured start. *)
Definition count_bounded (i : Interval) : Prop :=
  match callback i with
  | CountdownCallback c => c <= CONFIG.GAME.COUNTDOWN_START
  | TimerCallback => True
  end.

(** No countdown closure holds a count above the configured start. *)
Definition counts_bounded (w : World) : Prop :=
  map_Forall (fun _ i => count_bounded i) (timers w).

(** What the fields of the engine satisfy in each state. *)
Definition state_consistent (e : GameEngine) : Prop :=
  0 <= clickCount e
  /\ match state e with
     | IDLE =>
         clickCount e = 0 /\ gameStartTime e = None
         /\ timerInterval e = None /\ countdownInterval e = None
     | COUNTDOWN =>
         clickCount e = 0 /\ gameStartTime e = None
         /\ timerInterval e = None /\ is_Some (countdownInterval e)
     | PLAYING =>
         is_Some (timerInterval e) /\ is_Some (gameStartTime e)
     | FINISHED =>
         timeLeft e = 0%float /\ timerInterval e = None
         /\ is_Some (gameStartTime e)
     end.

(** The action registers or removes a subscriber. *)
Definition is_subscription (a : Action) : bool :=
  match a with
  | SetOnStateChange _ | SetOnTimerUpdate _ | SetOnClickCountUpdate _
  | SetOnCountdownTick _ | SetOnGameEnd _ => true
  | _ => false
  end.

(** All five subscriber slots are null. *)
Definition unsubscribed (e : GameEngine) : Prop :=
  onStateChange e = false /\ onTimerUpdate e = false
  /\ onClickCountUpdate e = false /\ onCountdownTick e = false
  /\ onGameEnd e = false.

(** isPlaying(), isCountdown(), isFinished(), isIdle() *)
Definition isPlaying (e : GameEngine) : bool := bool_decide (state e = PLAYING).
Definition isCountdown (e : GameEngine) : bool := bool_decide (state e = COUNTDOWN).
Definition isFinished (e : GameEngine) : bool := bool_decide (state e = FINISHED).
Definition isIdle (e : GameEngine) : bool := bool_decide (state e = IDLE).

(** startCountdown() on [w], then the countdown callback (the interval just
    created gets the identifier [nextId w]) run at the given times. *)
Definition countdown_run (times : list Z) (w : World) : World :=
  run (map (fun t => (t, Fire (nextId w))) times) (startCountdown w).

(* ------------------------------------------------------------------ *)
(** ** More of Web3Service.js and UIController.js *)

Module Web3ServiceReads.

Record ScoresResult := {
  sc_success : bool; scores : option (list Z); sc_error : option string
}.

(** What the contract's getPlayerScores answers; a throw carries the error
    object. *)
Definition ScoresReply : Type := string -> list Z + JsError.

(** getPlayerScores(address = null): the result and the contract calls
    made. *)
Definition getPlayerScores (reply : ScoresReply) (address : option string)
    (ws : Web3Service.t) : ScoresResult * list string :=
  let targetAddress := first_truthy address (Web3Service.walletAddress ws) in
  match targetAddress with
  | None | Some EmptyString =>          (* !targetAddress *)
      ({| sc_success := false; scores := None;
          sc_error := Some "No wallet address available" |}, [])
  | Some target =>
      if Web3Service.isDemoMode ws
         || negb (bool_decide (is_Some (Web3Service.contract ws)))
      then ({| sc_success := false; scores := None;
               sc_error := Some "Contract not available" |}, [])
      else
        match reply target with
        | inl l => ({| sc_success := true; scores := Some l; sc_error := None |},
                    [target])
        | inr e => ({| sc_success := false; scores := None;
                       sc_error := Some (or_else (message e)
                                           "Failed to load player scores") |},
                    [target])
        end
  end.

(** _reset() *)
Definition _reset (ws : Web3Service.t) : Web3Service.t :=
  {| Web3Service.contract := None; Web3Service.walletAddress := None;
     Web3Service.state := DISCONNECTED;
     Web3Service.isDemoMode := Web3Service.isDemoMode ws |}.

End Web3ServiceReads.

(** [s.slice(0, n)] for [n >= 0] *)
Definition slice_start (n : nat) (s : string) : string := String.substring 0 n s.

(** [s.slice(-n)] for [n > 0]: the last [n] characters, the whole string
    when it is shorter. *)
Definition slice_end (n : nat) (s : string) : string :=
  String.substring (String.length s - n) n s.

(** UIController._formatAddress(address), which is also the body of
    Web3Service.getFormattedAddress() for a connected wallet. *)
Definition _formatAddress (address : string) : string :=
  slice_start 6 address +:+ "..." +:+ slice_end 4 address.

(** Web3Service.getFormattedAddress() *)
Definition getFormattedAddress (ws : Web3Service.t) : option string :=
  match Web3Service.walletAddress ws with
  | None => None
  | Some a => if decide (a = "") then None else Some (_formatAddress a)
  end.






(** The four texts of the stats panel. *)
Definition panel (ui : UIController.t) : string * string * string * string :=
  (UIController.bestScore_text ui, UIController.totalGames_text ui,
   UIController.totalClicks_text ui, UIController.onChainScores_text ui).

(** The last alert shown, if any. *)
Definition last_alert (ui : UIController.t) : option (string * AlertType) :=
  last (UIController.alerts ui).

(** The service has the contract attached and holds the wallet address
    [addr], which is not the empty text. *)
Definition live_with_wallet (addr : string) (ws : Web3Service.t) : Prop :=
  Web3Service.isDemoMode ws = false
  /\ is_Some (Web3Service.contract ws)
  /\ Web3Service.walletAddress ws = Some addr
  /\ addr <> "".

(* ------------------------------------------------------------------ *)
(** ** app.js: the handlers that join the page to the engine

    [GamePage.t] is the part of the page that only these handlers write: the
    click button, the countdown overlay, the click counter and the results
    modal.  (The start button, the status lines and the alerts are written
    by the submission sequence as well, the timer text goes through
    toFixed; they are not part of it.)  A text that was never assigned is
    [None]: whatever the markup holds. *)

Module GamePage.

Record t := {
  clickBtn_disabled : bool;
  countdown_shown : bool;          (* class countdown-overlay--show *)
  countdownNumber : option Z;
  clickCount_text : option Z;
  modal_shown : bool;              (* class modal--show *)
  finalScore_text : option Z
}.

(** setClickButtonEnabled(enabled) *)
Definition setClickButtonEnabled (enabled : bool) (p : t) : t :=
  {| clickBtn_disabled := negb enabled; countdown_shown := countdown_shown p;
     countdownNumber := countdownNumber p; clickCount_text := clickCount_text p;
     modal_shown := modal_shown p; finalScore_text := finalScore_text p |}.

(** showCountdown(count) *)
Definition showCountdown (count : Z) (p : t) : t :=
  {| clickBtn_disabled := clickBtn_disabled p; countdown_shown := true;
     countdownNumber := Some count; clickCount_text := clickCount_text p;
     modal_shown := modal_shown p; finalScore_text := finalScore_text p |}.

(** hideCountdown() *)
Definition hideCountdown (p : t) : t :=
  {| clickBtn_disabled := clickBtn_disabled p; countdown_shown := false;
     countdownNumber := countdownNumber p; clickCount_text := clickCount_text p;
     modal_shown := modal_shown p; finalScore_text := finalScore_text p |}.

(** updateCountdown(count) *)
Definition updateCountdown (count : Z) (p : t) : t :=
  {| clickBtn_disabled := clickBtn_disabled p; countdown_shown := countdown_shown p;
     countdownNumber := Some count; clickCount_text := clickCount_text p;
     modal_shown := modal_shown p; finalScore_text := finalScore_text p |}.

(** updateClickCount(count) *)
Definition updateClickCount (count : Z) (p : t) : t :=
  {| clickBtn_disabled := clickBtn_disabled p; countdown_shown := countdown_shown p;
     countdownNumber := countdownNumber p; clickCount_text := Some count;
     modal_shown := modal_shown p; finalScore_text := finalScore_text p |}.

(** showResultsModal(score, statusMessage) *)
Definition showResultsModal (score : Z) (p : t) : t :=
  {| clickBtn_disabled := clickBtn_disabled p; countdown_shown := countdown_shown p;
     countdownNumber := countdownNumber p; clickCount_text := clickCount_text p;
     modal_shown := true; finalScore_text := Some score |}.

(** hideResultsModal() *)
Definition hideResultsModal (p : t) : t :=
  {| clickBtn_disabled := clickBtn_disabled p; countdown_shown := countdown_shown p;
     countdownNumber := countdownNumber p; clickCount_text := clickCount_text p;
     modal_shown := false; finalScore_text := finalScore_text p |}.

(** resetGameUI() *)
Definition resetGameUI (p : t) : t :=
  setClickButtonEnabled false (updateClickCount 0 p).

End GamePage.

(** _handleGameStateChange(state) *)
Definition _handleGameStateChange (s : GameState) (p : GamePage.t) : GamePage.t :=
  match s with
  | IDLE => GamePage.setClickButtonEnabled false p
  | COUNTDOWN => p
  | PLAYING => GamePage.setClickButtonEnabled true (GamePage.hideCountdown p)
  | FINISHED => GamePage.setClickButtonEnabled false p
  end.

(** The five functions _setupGameEngineCallbacks() registers, applied to
    what the engine hands them; _handleGameEnd(gameData) shows the modal and
    then starts the submission sequence (App._submitScore). *)
Definition deliver (p : GamePage.t) (ev : Event) : GamePage.t :=
  match ev with
  | StateChanged s => _handleGameStateChange s p
  | TimerUpdated _ => p
  | ClickCountUpdated n => GamePage.updateClickCount n p
  | CountdownTicked c => GamePage.updateCountdown c p
  | RoundEnded r => GamePage.showResultsModal (score r) p
  end.

(** An engine method called by the App: the subscribers run while it runs
    and write the page. *)
Definition calling (f : World -> World) (s : World * GamePage.t)
  : World * GamePage.t :=
  (f s.1, foldl deliver s.2 (drop (length (emitted s.1)) (emitted (f s.1)))).

(** _handleStartGame(); [connected] is what web3Service.isConnected()
    answers. *)
Definition _handleStartGame (connected : bool) (s : World * GamePage.t)
  : World * GamePage.t :=
  if negb connected then s
  else calling startCountdown
         (s.1, GamePage.showCountdown CONFIG.GAME.COUNTDOWN_START s.2).

(** _handleClick() *)
Definition _handleClick (s : World * GamePage.t) : World * GamePage.t :=
  if isPlaying (engine s.1) then calling (fun w => (registerClick w).2) s else s.

(** _handlePlayAgain() *)
Definition _handlePlayAgain (s : World * GamePage.t) : World * GamePage.t :=
  let s := (s.1, GamePage.hideResultsModal s.2) in
  let s := calling reset s in
  (s.1, GamePage.resetGameUI s.2).

Inductive UserAction :=
| PressStart (connected : bool)
| PressClick
| PressPlayAgain
| IntervalFires (id : positive).

Definition app_step (now : Z) (a : UserAction) (s : World * GamePage.t)
  : World * GamePage.t :=
  match a with
  | PressStart connected => _handleStartGame connected s
  | PressClick => _handleClick s
  | PressPlayAgain => _handlePlayAgain s
  | IntervalFires id => calling (fire now id) s
  end.

Fixpoint app_run (acts : list (Z * UserAction)) (s : World * GamePage.t)
  : World * GamePage.t :=
  match acts with
  | [] => s
  | (now, a) :: rest => app_run rest (app_step now a s)
  end.

(** The App once init() has registered its five functions on a new engine,
    over a page [p]. *)
Definition app_init (p : GamePage.t) : World * GamePage.t := (idle_subscribed, p).

(** All five subscriber slots hold a function. *)
Definition subscribed (e : GameEngine) : Prop :=
  onStateChange e = true /\ onTimerUpdate e = true
  /\ onClickCountUpdate e = true /\ onCountdownTick e = true
  /\ onGameEnd e = true.

(** What the page shows of the engine. *)
Definition page_follows_engine (s : World * GamePage.t) : Prop :=
  (GamePage.clickBtn_disabled s.2 = false <-> state (engine s.1) = PLAYING)
  /\ (GamePage.modal_shown s.2 = true <-> state (engine s.1) = FINISHED)
  /\ (state (engine s.1) = PLAYING \/ state (engine s.1) = FINISHED ->
      GamePage.clickCount_text s.2 = Some (clickCount (engine s.1)))
  /\ (state (engine s.1) = FINISHED ->
      GamePage.finalScore_text s.2 = Some (clickCount (engine s.1)))
  /\ (state (engine s.1) = COUNTDOWN -> GamePage.countdown_shown s.2 = true).

(** A page as the markup can provide it: click button disabled, results
    modal hidden. *)
Definition blank_page : GamePage.t :=
  {| GamePage.clickBtn_disabled := true; GamePage.countdown_shown := false;
     GamePage.countdownNumber := None; GamePage.clickCount_text := None;
     GamePage.modal_shown := false; GamePage.finalScore_text := None |}.

(** The engine method an App handler ends in, if any. *)
Definition engine_action (a : UserAction) : option Action :=
  match a with
  | PressStart true => Some StartCountdown
  | PressStart false => None
  | PressClick => Some RegisterClick
  | PressPlayAgain => Some Reset
  | IntervalFires id => Some (Fire id)
  end.

(** What the App keeps true of its engine and its page. *)
Definition app_inv (s : World * GamePage.t) : Prop :=
  subscribed (engine s.1) /\ one_schedule s.1 /\ page_follows_engine s.

(* ------------------------------------------------------------------ *)
(** ** Proof tools *)

(** *** Binary64 comparisons *)




(** *** What each emitter leaves alone and what it appends *)

Lemma emitStateChange_eq w :
  _emitStateChange w
  = {| engine := engine w; timers := timers w; nextId := nextId w;
       emitted := emitted w
         ++ opt_event (onStateChange (engine w)) (StateChanged (state (engine w))) |}.
Proof.
  unfold _emitStateChange, opt_event, notify. destruct w as [e tm nid em]; cbn.
  destruct (onStateChange e); [done | by rewrite app_nil_r].
Qed.

Lemma emitTimerUpdate_eq w :
  _emitTimerUpdate w
  = {| engine := engine w; timers := timers w; nextId := nextId w;
       emitted := emitted w
         ++ opt_event (onTimerUpdate (engine w))
              (TimerUpdated {| td_timeLeft := timeLeft (engine w);
                               td_status := getTimerStatus (engine w) |}) |}.
Proof.
  unfold _emitTimerUpdate, opt_event, notify. destruct w as [e tm nid em]; cbn.
  destruct (onTimerUpdate e); [done | by rewrite app_nil_r].
Qed.

Lemma emitClickCountUpdate_eq w :
  _emitClickCountUpdate w
  = {| engine := engine w; timers := timers w; nextId := nextId w;
       emitted := emitted w
         ++ opt_event (onClickCountUpdate (engine w))
              (ClickCountUpdated (clickCount (engine w))) |}.
Proof.
  unfold _emitClickCountUpdate, opt_event, notify. destruct w as [e tm nid em]; cbn.
  destruct (onClickCountUpdate e); [done | by rewrite app_nil_r].
Qed.

Lemma emitCountdownTick_eq count w :
  _emitCountdownTick count w
  = {| engine := engine w; timers := timers w; nextId := nextId w;
       emitted := emitted w
         ++ opt_event (onCountdownTick (engine w)) (CountdownTicked count) |}.
Proof.
  unfold _emitCountdownTick, opt_event, notify. destruct w as [e tm nid em]; cbn.
  destruct (onCountdownTick e); [done | by rewrite app_nil_r].
Qed.

Ltac emitters :=
  rewrite ?emitStateChange_eq, ?emitTimerUpdate_eq, ?emitClickCountUpdate_eq,
    ?emitCountdownTick_eq; cbn.

(** *** The methods, one equation each *)

Lemma startGameplay_eq now w :
  startGameplay now w
  = {| engine := playing_engine now (nextId w) (engine w);
       timers := <[nextId w := {| callback := TimerCallback;
                                  delay := CONFIG.GAME.TIMER_INTERVAL |}]> (timers w);
       nextId := Pos.succ (nextId w);
       emitted := emitted w
         ++ opt_event (onStateChange (engine w)) (StateChanged PLAYING)
         ++ opt_event (onClickCountUpdate (engine w)) (ClickCountUpdated 0)
         ++ opt_event (onTimerUpdate (engine w))
              (TimerUpdated {| td_timeLeft := CONFIG.GAME.DURATION;
                               td_status := normal |}) |}.
Proof.
  unfold startGameplay. emitters. unfold setInterval, assign; cbn.
  by rewrite <- !app_assoc.
Qed.

Lemma endGame_playing now w :
  state (engine w) = PLAYING ->
  endGame now w
  = {| engine := finished_engine (engine w);
       timers := without (timerInterval (engine w)) (timers w);
       nextId := nextId w;
       emitted := emitted w
         ++ opt_event (onStateChange (engine w)) (StateChanged FINISHED)
         ++ opt_event (onTimerUpdate (engine w))
              (TimerUpdated {| td_timeLeft := 0%float; td_status := danger |})
         ++ opt_event (onGameEnd (engine w))
              (RoundEnded {| score := clickCount (engine w);
                             duration := CONFIG.GAME.DURATION;
                             timestamp := now |}) |}.
Proof.
  intros Hp. unfold endGame. rewrite decide_False by (rewrite Hp; auto).
  destruct w as [e tm nid em]; cbn in *.
  destruct e as [s cc tl ti ci gst hsc htu hcc hct hge]; cbn in *.
  destruct ti as [id|]; emitters; unfold finished_engine, notify, opt_event; cbn;
    destruct hge; cbn; rewrite <- ?app_assoc, ?app_nil_r; reflexivity.
Qed.

Lemma endGame_not_playing now w :
  state (engine w) <> PLAYING -> endGame now w = w.
Proof. intros Hp. unfold endGame. by rewrite decide_True. Qed.

Lemma reset_eq w :
  reset w
  = {| engine := idle_engine (engine w);
       timers := without (countdownInterval (engine w))
                   (without (timerInterval (engine w)) (timers w));
       nextId := nextId w;
       emitted := emitted w
         ++ opt_event (onStateChange (engine w)) (StateChanged IDLE) |}.
Proof.
  unfold reset. destruct w as [e tm nid em].
  destruct e as [s cc tl ti ci gst hsc htu hcc hct hge]; cbn.
  destruct ti, ci; emitters; reflexivity.
Qed.

Lemma destroy_eq w :
  destroy w
  = {| engine := with_handlers false false false false false (engine w);
       timers := without (countdownInterval (engine w))
                   (without (timerInterval (engine w)) (timers w));
       nextId := nextId w;
       emitted := emitted w |}.
Proof.
  unfold destroy. destruct w as [e tm nid em].
  destruct e as [s cc tl ti ci gst hsc htu hcc hct hge]; cbn.
  destruct ti, ci; reflexivity.
Qed.

Lemma startCountdown_idle w :
  state (engine w) = IDLE ->
  startCountdown w
  = {| engine := with_countdownInterval (Some (nextId w))
                   (with_state COUNTDOWN (engine w));
       timers := <[nextId w := {| callback := CountdownCallback CONFIG.GAME.COUNTDOWN_START;
                                  delay := 1000%float |}]> (timers w);
       nextId := Pos.succ (nextId w);
       emitted := emitted w
         ++ opt_event (onStateChange (engine w)) (StateChanged COUNTDOWN)
         ++ opt_event (onCountdownTick (engine w))
              (CountdownTicked CONFIG.GAME.COUNTDOWN_START) |}.
Proof.
  intros Hi. unfold startCountdown. rewrite decide_False by (rewrite Hi; auto).
  emitters. unfold setInterval, assign; cbn. by rewrite <- !app_assoc.
Qed.

Lemma startCountdown_not_idle w :
  state (engine w) <> IDLE -> startCountdown w = w.
Proof. intros Hi. unfold startCountdown. by rewrite decide_True. Qed.

Lemma registerClick_playing w :
  state (engine w) = PLAYING ->
  registerClick w
  = (clickCount (engine w) + 1,
     {| engine := with_clickCount (clickCount (engine w) + 1) (engine w);
        timers := timers w; nextId := nextId w;
        emitted := emitted w
          ++ opt_event (onClickCountUpdate (engine w))
               (ClickCountUpdated (clickCount (engine w) + 1)) |}).
Proof.
  intros Hp. unfold registerClick. rewrite decide_False by (rewrite Hp; auto).
  emitters. reflexivity.
Qed.

Lemma registerClick_not_playing w :
  state (engine w) <> PLAYING -> registerClick w = (clickCount (engine w), w).
Proof. intros Hp. unfold registerClick. by rewrite decide_True. Qed.

Lemma timerTick_running now w :
  (decremented (engine w) <=? 0)%float = false ->
  timerTick now w
  = {| engine := with_timeLeft (decremented (engine w)) (engine w);
       timers := timers w; nextId := nextId w;
       emitted := emitted w
         ++ opt_event (onTimerUpdate (engine w))
              (TimerUpdated
                 {| td_timeLeft := decremented (engine w);
                    td_status := getTimerStatus
                      (with_timeLeft (decremented (engine w)) (engine w)) |}) |}.
Proof.
  intros Hr. unfold timerTick, decremented in *. cbn in *. rewrite Hr.
  emitters. reflexivity.
Qed.

Lemma timerTick_expired_playing now w :
  (decremented (engine w) <=? 0)%float = true ->
  state (engine w) = PLAYING ->
  timerTick now w
  = {| engine := finished_engine (engine w);
       timers := without (timerInterval (engine w)) (timers w);
       nextId := nextId w;
       emitted := emitted w
         ++ opt_event (onStateChange (engine w)) (StateChanged FINISHED)
         ++ opt_event (onTimerUpdate (engine w))
              (TimerUpdated {| td_timeLeft := 0%float; td_status := danger |})
         ++ opt_event (onGameEnd (engine w))
              (RoundEnded {| score := clickCount (engine w);
                             duration := CONFIG.GAME.DURATION;
                             timestamp := now |})
         ++ opt_event (onTimerUpdate (engine w))
              (TimerUpdated {| td_timeLeft := 0%float; td_status := danger |}) |}.
Proof.
  intros Hx Hp. unfold timerTick, decremented in *. cbn in *. rewrite Hx.
  rewrite endGame_playing by exact Hp. emitters.
  by rewrite <- !app_assoc.
Qed.

Lemma timerTick_expired_other now w :
  (decremented (engine w) <=? 0)%float = true ->
  state (engine w) <> PLAYING ->
  timerTick now w
  = {| engine := with_timeLeft 0%float (engine w);
       timers := timers w; nextId := nextId w;
       emitted := emitted w
         ++ opt_event (onTimerUpdate (engine w))
              (TimerUpdated {| td_timeLeft := 0%float; td_status := danger |}) |}.
Proof.
  intros Hx Hp. unfold timerTick, decremented in *. cbn in *. rewrite Hx.
  rewrite endGame_not_playing by exact Hp. emitters. reflexivity.
Qed.

Lemma countdownTick_continue now self count w :
  0 < count - 1 ->
  countdownTick now self count w
  = {| engine := engine w;
       timers := alter (fun i => {| callback := CountdownCallback (count - 1);
                                    delay := delay i |}) self (timers w);
       nextId := nextId w;
       emitted := emitted w
         ++ opt_event (onCountdownTick (engine w)) (CountdownTicked (count - 1)) |}.
Proof.
  intros Hc. unfold countdownTick. cbn zeta.
  replace (0 <? count - 1) with true by (symmetry; apply Z.ltb_lt; lia).
  emitters. reflexivity.
Qed.

Lemma countdownTick_go now self count w :
  count - 1 <= 0 ->
  countdownTick now self count w
  = {| engine := playing_engine now (nextId w)
                   (with_countdownInterval None (engine w));
       timers := <[nextId w := {| callback := TimerCallback;
                                  delay := CONFIG.GAME.TIMER_INTERVAL |}]>
                   (without (countdownInterval (engine w))
                      (alter (fun i => {| callback := CountdownCallback (count - 1);
                                          delay := delay i |}) self (timers w)));
       nextId := Pos.succ (nextId w);
       emitted := emitted w
         ++ opt_event (onStateChange (engine w)) (StateChanged PLAYING)
         ++ opt_event (onClickCountUpdate (engine w)) (ClickCountUpdated 0)
         ++ opt_event (onTimerUpdate (engine w))
              (TimerUpdated {| td_timeLeft := CONFIG.GAME.DURATION;
                               td_status := normal |}) |}.
Proof.
  intros Hc. unfold countdownTick. cbn zeta.
  replace (0 <? count - 1) with false by (symmetry; apply Z.ltb_ge; lia).
  rewrite startGameplay_eq. unfold set_captured_count, clearInterval, without, assign.
  cbn. destruct (countdownInterval (engine w)); reflexivity.
Qed.

(** *** Case analysis on one action *)

Lemma fire_eq now id w :
  fire now id w
  = match timers w !! id with
    | Some i =>
        match callback i with
        | CountdownCallback count => countdownTick now id count w
        | TimerCallback => timerTick now w
        end
    | None => w
    end.
Proof. unfold fire. destruct (timers w !! id) as [[[c|] d]|]; reflexivity. Qed.

(** Splits [step now a w] into the cases of the equations above and
    rewrites each into its explicit world. *)
Ltac step_cases now a w :=
  destruct a as [ | | | | | | h | h | h | h | h | fid ]; cbn [step];
  [ destruct (decide (state (engine w) = IDLE)) as [Hst|Hst];
    [ rewrite (startCountdown_idle w Hst) | rewrite (startCountdown_not_idle w Hst) ]
  | rewrite (startGameplay_eq now w)
  | destruct (decide (state (engine w) = PLAYING)) as [Hst|Hst];
    [ rewrite (registerClick_playing w Hst) | rewrite (registerClick_not_playing w Hst) ]
  | destruct (decide (state (engine w) = PLAYING)) as [Hst|Hst];
    [ rewrite (endGame_playing now w Hst) | rewrite (endGame_not_playing now w Hst) ]
  | rewrite (reset_eq w)
  | rewrite (destroy_eq w)
  | unfold setOnStateChange, assign
  | unfold setOnTimerUpdate, assign
  | unfold setOnClickCountUpdate, assign
  | unfold setOnCountdownTick, assign
  | unfold setOnGameEnd, assign
  | rewrite (fire_eq now fid w);
    destruct (timers w !! fid) as [[[count|] dl]|] eqn:Hfid; cbn [callback];
    [ destruct (Z_lt_le_dec 0 (count - 1)) as [Hcount|Hcount];
      [ rewrite (countdownTick_continue now fid count w Hcount)
      | rewrite (countdownTick_go now fid count w Hcount) ]
    | destruct (decremented (engine w) <=? 0)%float eqn:Hdec;
      [ destruct (decide (state (engine w) = PLAYING)) as [Hst|Hst];
        [ rewrite (timerTick_expired_playing now w Hdec Hst)
        | rewrite (timerTick_expired_other now w Hdec Hst) ]
      | rewrite (timerTick_running now w Hdec) ]
    | ] ].

(** *** Interval identifiers are never reused *)

Lemma ids_fresh_without h w tm :
  (forall id, is_Some (tm !! id) -> (id < nextId w)%positive) ->
  forall id, is_Some (without h tm !! id) -> (id < nextId w)%positive.
Proof.
  intros Hf id. destruct h as [j|]; cbn; [|apply Hf].
  rewrite lookup_delete. case_decide; [by intros [? ?]|apply Hf].
Qed.

Lemma ids_fresh_insert (tm : gmap positive Interval) n i :
  (forall id, is_Some (tm !! id) -> (id < n)%positive) ->
  forall id, is_Some (<[n := i]> tm !! id) -> (id < Pos.succ n)%positive.
Proof.
  intros Hf id. rewrite lookup_insert. case_decide; [subst; lia|].
  intros Hs. apply Hf in Hs. lia.
Qed.

Lemma ids_fresh_alter (tm : gmap positive Interval) n f j :
  (forall id, is_Some (tm !! id) -> (id < n)%positive) ->
  forall id, is_Some (alter f j tm !! id) -> (id < n)%positive.
Proof.
  intros Hf id. rewrite lookup_alter. case_decide; [subst|apply Hf].
  intros Hs. apply Hf. by apply fmap_is_Some in Hs.
Qed.

Lemma ids_fresh_step now a w : ids_fresh w -> ids_fresh (step now a w).
Proof.
  unfold ids_fresh. intros Hf. step_cases now a w; cbn; auto;
    try (apply ids_fresh_insert; auto);
    try (apply ids_fresh_without; auto);
    try (apply ids_fresh_without; auto).
  apply ids_fresh_alter; auto. apply ids_fresh_alter; auto.
Qed.

Lemma reachable_ids_fresh w : reachable w -> ids_fresh w.
Proof.
  induction 1 as [|now a w _ IH]; [|by apply ids_fresh_step].
  intros id. cbn. rewrite lookup_empty. by intros [? ?].
Qed.

(** *** timeLeft and the timer-update payloads stay at or above zero *)

Lemma Forall_opt_event (P : Event -> Prop) b ev :
  (b = true -> P ev) -> Forall P (opt_event b ev).
Proof. destruct b; cbn; auto. Qed.



(** *** One schedule at a time *)

Lemma without_empty h : without h (∅ : gmap positive Interval) = ∅.
Proof. destruct h; cbn; [apply delete_empty | reflexivity]. Qed.

Lemma without_held_singleton h1 h2 id (i : Interval) :
  h1 = Some id \/ h2 = Some id ->
  without h2 (without h1 {[ id := i ]}) = ∅.
Proof.
  intros [-> | ->]; cbn.
  - rewrite delete_singleton_eq. apply without_empty.
  - destruct h1 as [j|]; cbn; [|apply delete_singleton_eq].
    rewrite delete_singleton. case_decide; [apply delete_empty | apply delete_singleton_eq].
Qed.

Lemma held_handle_cleared h1 h2 h (tm : gmap positive Interval) :
  h1 = Some h \/ h2 = Some h -> without h2 (without h1 tm) !! h = None.
Proof.
  intros [-> | ->]; cbn.
  - destruct h2 as [j|]; cbn; [|apply lookup_delete_eq].
    rewrite lookup_delete. case_decide; [done | apply lookup_delete_eq].
  - apply lookup_delete_eq.
Qed.

Lemma one_schedule_cleared w :
  one_schedule w ->
  without (countdownInterval (engine w))
    (without (timerInterval (engine w)) (timers w)) = ∅.
Proof.
  intros [He | [(id & c & d & Ht & Hci & Hs) | (id & d & Ht & Hti & Hs)]];
    rewrite ?He, ?Ht.
  - by rewrite !without_empty.
  - apply without_held_singleton. auto.
  - apply without_held_singleton. auto.
Qed.

Lemma one_schedule_step now a w :
  one_schedule w -> ~ overlapping_start a w -> one_schedule (step now a w).
Proof.
  intros Hinv Hno.
  assert (Hclr := one_schedule_cleared w Hinv).
  step_cases now a w; unfold one_schedule; cbn [engine timers state timerInterval
    countdownInterval with_state with_clickCount with_timeLeft with_handlers
    with_countdownInterval playing_engine finished_engine idle_engine];
    try (left; exact Hclr); try exact Hinv.
  - (* startCountdown from Idle *)
    destruct Hinv as [He | [(id & c & d & Ht & Hci & Hs) | (id & d & Ht & Hti & Hs)]];
      try congruence.
    right; left. eexists _, _, _. rewrite He, insert_empty. eauto.
  - (* startGameplay, no schedule active *)
    destruct (decide (timers w = ∅)) as [He|Hne]; [|by destruct Hno].
    right; right. eexists _, _. rewrite He, insert_empty. eauto.
  - (* endGame while Playing *)
    destruct Hinv as [He | [(id & c & d & Ht & Hci & Hs) | (id & d & Ht & Hti & Hs)]];
      try congruence; left.
    + rewrite He. apply without_empty.
    + rewrite Ht, Hti. cbn. apply delete_singleton_eq.
  - (* countdown callback, count still positive *)
    destruct Hinv as [He | [(id & c & d & Ht & Hci & Hs) | (id & d & Ht & Hti & Hs)]].
    + rewrite He in Hfid. by rewrite lookup_empty in Hfid.
    + rewrite Ht in Hfid |- *. apply lookup_singleton_Some in Hfid as [<- Hi].
      right; left. eexists _, _, _. rewrite alter_singleton_eq. eauto.
    + rewrite Ht in Hfid. apply lookup_singleton_Some in Hfid as [_ Hi]. congruence.
  - (* countdown callback, count reaches zero *)
    destruct Hinv as [He | [(id & c & d & Ht & Hci & Hs) | (id & d & Ht & Hti & Hs)]].
    + rewrite He in Hfid. by rewrite lookup_empty in Hfid.
    + rewrite Ht in Hfid |- *. apply lookup_singleton_Some in Hfid as [<- Hi].
      right; right. eexists _, _. rewrite alter_singleton_eq, Hci. cbn.
      rewrite delete_singleton_eq, insert_empty. eauto.
    + rewrite Ht in Hfid. apply lookup_singleton_Some in Hfid as [_ Hi]. congruence.
  - (* decrement callback ends the round *)
    destruct Hinv as [He | [(id & c & d & Ht & Hci & Hs) | (id & d & Ht & Hti & Hs)]];
      try congruence; left.
    + rewrite He. apply without_empty.
    + rewrite Ht, Hti. cbn. apply delete_singleton_eq.
Qed.

Lemma in_order_one_schedule w : reachable_in_order w -> one_schedule w.
Proof.
  induction 1 as [|now a w _ IH Hno]; [by left | by apply one_schedule_step].
Qed.

Lemma in_order_reachable w : reachable_in_order w -> reachable w.
Proof. induction 1; by constructor. Qed.

(* ------------------------------------------------------------------ *)
(** ** The engine's schedules *)

Lemma foldl_run_app acts1 acts2 w :
  run (acts1 ++ acts2) w = run acts2 (run acts1 w).
Proof. revert w. induction acts1 as [|[now a] acts1 IH]; intros w; cbn; auto. Qed.

Lemma fire_no_timers now id w : timers w = ∅ -> fire now id w = w.
Proof. intros He. rewrite fire_eq, He, lookup_empty. reflexivity. Qed.

Lemma run_firings_no_timers l w : timers w = ∅ -> run (firings l) w = w.
Proof.
  intros He. induction l as [|[now id] l IH]; cbn; [reflexivity|].
  by rewrite fire_no_timers.
Qed.

Lemma one_schedule_not_both w :
  one_schedule w ->
  countdown_active w && decrement_active w = false /\ (size (timers w) <= 1)%nat.
Proof.
  unfold countdown_active, decrement_active.
  intros [He | [(id & c & d & Ht & Hci & Hs) | (id & d & Ht & Hti & Hs)]];
    rewrite ?He, ?Ht, ?map_to_list_empty, ?map_to_list_singleton,
      ?map_size_empty, ?map_size_singleton; cbn; auto.
Qed.

Lemma in_order_run acts w :
  reachable_in_order w -> in_order acts w = true -> reachable_in_order (run acts w).
Proof.
  revert w. induction acts as [|[now a] acts IH]; intros w Hw Hok; cbn in *; [done|].
  apply andb_prop in Hok as [Ha Hrest]. apply IH; [|exact Hrest].
  constructor; [exact Hw|]. intros [-> Hne]. by apply bool_decide_eq_true in Ha.
Qed.

Lemma round_after_in_order n :
  (n <= 101)%nat -> reachable_in_order (round_after n).
Proof.
  intros Hn. unfold round_after, round_started, countdown_started.
  rewrite <- !foldl_run_app.
  apply in_order_run; [apply in_order_new|].
  do 102 (destruct n as [|n]; [vm_compute; reflexivity|]). lia.
Qed.

Lemma round_started_in_order : reachable_in_order round_started.
Proof.
  unfold round_started, countdown_started. rewrite <- foldl_run_app.
  apply in_order_run; [apply in_order_new | vm_compute; reflexivity].
Qed.

Lemma reachable_run acts w : reachable w -> reachable (run acts w).
Proof.
  revert w. induction acts as [|[now a] acts IH]; intros w Hw; cbn; [done|].
  apply IH. by constructor.
Qed.

(** C3, as stated, fails: an outside call of startGameplay() during the
    countdown leaves the countdown schedule and the decrement schedule
    active together, in a world reached through public methods only. *)
Lemma overlap_world_has_both_schedules :
  reachable overlap_world
  /\ countdown_active overlap_world = true
  /\ decrement_active overlap_world = true.
Proof.
  split; [apply reachable_run, reachable_new|].
  split; vm_compute; reflexivity.
Qed.

(** C3 (amended): reset() and destroy() cancel the schedules whose handles
    the engine holds, whatever the state; and in every world reached through
    the public methods and the interval callbacks, provided startGameplay()
    is not called from outside while a schedule is active, at most one of
    the countdown schedule and the decrement schedule is active, the engine
    holds its handle, and reset() and destroy() leave no schedule active. *)
Theorem one_schedule_at_a_time w :
  (forall h,
     timerInterval (engine w) = Some h \/ countdownInterval (engine w) = Some h ->
     timers (reset w) !! h = None /\ timers (destroy w) !! h = None)
  /\ (reachable_in_order w ->
      one_schedule w
      /\ countdown_active w && decrement_active w = false
      /\ (size (timers w) <= 1)%nat
      /\ timers (reset w) = ∅
      /\ timers (destroy w) = ∅).
Proof.
  split.
  - intros h Hh. rewrite reset_eq, destroy_eq. cbn.
    split; apply held_handle_cleared; exact Hh.
  - intros Hw. assert (Hinv := in_order_one_schedule w Hw).
    split; [exact Hinv|].
    destruct (one_schedule_not_both w Hinv) as [Hb Hs].
    repeat split; auto.
    + rewrite reset_eq. cbn. by apply one_schedule_cleared.
    + rewrite destroy_eq. cbn. by apply one_schedule_cleared.
Qed.

Lemma one_schedule_at_a_time_witness :
  one_schedule round_started
  /\ countdown_active round_started && decrement_active round_started = false
  /\ (size (timers round_started) <= 1)%nat
  /\ timers (reset round_started) = ∅
  /\ timers (destroy round_started) = ∅.
Proof.
  exact (proj2 (one_schedule_at_a_time round_started) round_started_in_order).
Defined.

(** C7, as stated, fails: after startGameplay() was called a second time
    during the round, reset() cancels only the newer decrement schedule; the
    engine is Idle, yet interval 2 is still active and its next run reaches
    the timer subscriber and lowers timeLeft. *)
Lemma reset_leaves_orphan_schedule :
  reachable orphan_world
  /\ state (engine orphan_world) = IDLE
  /\ is_Some (timers orphan_world !! 2%positive)
  /\ emitted_by 4100 (Fire 2%positive) orphan_world <> []
  /\ timeLeft (engine (fire 4100 2%positive orphan_world)) <> CONFIG.GAME.DURATION.
Proof.
  split; [apply reachable_run, in_order_reachable, round_started_in_order|].
  split; [vm_compute; reflexivity|].
  split; [vm_compute; eauto|].
  split; [vm_compute; discriminate|].
  intros H. apply (f_equal (fun t => (t =? CONFIG.GAME.DURATION)%float)) in H.
  vm_compute in H. discriminate.
Qed.

(** C7 (amended): from every state reset() leads to Idle with clickCount 0,
    timeLeft equal to the configured duration, both handles null and the
    intervals they named cancelled; and in
    every world reached without an outside call of startGameplay() during
    an active schedule, no interval is left: whatever interval the event
    loop tries to run afterwards, nothing changes and nothing is emitted. *)
Theorem reset_returns_to_idle w :
  (state (engine (reset w)) = IDLE
   /\ clickCount (engine (reset w)) = 0
   /\ timeLeft (engine (reset w)) = CONFIG.GAME.DURATION
   /\ timerInterval (engine (reset w)) = None
   /\ countdownInterval (engine (reset w)) = None
   /\ (forall h,
         timerInterval (engine w) = Some h \/ countdownInterval (engine w) = Some h ->
         timers (reset w) !! h = None))
  /\ (reachable_in_order w ->
      timers (reset w) = ∅
      /\ forall l, run (firings l) (reset w) = reset w).
Proof.
  split.
  { rewrite reset_eq; cbn. repeat split. intros h Hh. by apply held_handle_cleared. }
  intros Hw. assert (He : timers (reset w) = ∅).
  { rewrite reset_eq. cbn. by apply one_schedule_cleared, in_order_one_schedule. }
  split; [exact He|]. intros l. by apply run_firings_no_timers.
Qed.

Lemma reset_returns_to_idle_witness :
  state (engine (reset (round_after 7))) = IDLE
  /\ timers (reset (round_after 7)) = ∅
  /\ run (firings [(3900, 2%positive); (4000, 1%positive)]) (reset (round_after 7))
     = reset (round_after 7).
Proof.
  destruct (reset_returns_to_idle (round_after 7)) as [(Hs & _) Hr].
  split; [exact Hs|].
  destruct Hr as [He Hl].
  - apply (round_after_in_order 7). lia.
  - split; [exact He | apply Hl].
Defined.

(* ------------------------------------------------------------------ *)
(** ** What the subscribers receive *)

Lemma round_ends_app l1 l2 : round_ends (l1 ++ l2) = round_ends l1 ++ round_ends l2.
Proof. apply omap_app. Qed.




(** Rewrites [emitted_by] in every case produced by [step_cases]. *)
Ltac emitted_cases now a w :=
  unfold emitted_by; step_cases now a w;
  cbn [emitted engine state clickCount snd]; rewrite ?drop_app_length, ?drop_all.

(** C1, as stated, fails: a round ended by endGame() 2 s after it was
    entered reports [duration] 10 (the configured duration), while the
    wall-clock time elapsed since the round's start is 2 s. *)
Lemma round_result_duration_is_not_elapsed_time :
  state (engine round_cut_short) = FINISHED
  /\ gameStartTime (engine round_cut_short) = Some 3000
  /\ round_ends (emitted round_cut_short)
     = [ {| score := 0; duration := 10%float; timestamp := 5000 |} ]
  /\ elapsedSeconds 5000 (engine round_cut_short) = 2%float
  /\ 10%float <> elapsedSeconds 5000 (engine round_cut_short).
Proof.
  repeat split; try (vm_compute; reflexivity).
  intros H. apply (f_equal (fun t => (t =? 10)%float)) in H.
  vm_compute in H. discriminate.
Qed.

(** C1 (amended): an action that brings the engine to Finished leaves the
    click count as it was and hands the round-end subscriber, when one is
    registered, exactly one RoundResult, whose score is that click count,
    whose duration is the configured round duration and whose timestamp is
    the clock reading of that moment; no other action emits a round end. *)
Theorem round_end_emitted_once now a w :
  (state (engine w) <> FINISHED ->
   state (engine (step now a w)) = FINISHED ->
   clickCount (engine (step now a w)) = clickCount (engine w)
   /\ round_ends (emitted_by now a w)
      = if onGameEnd (engine w)
        then [ {| score := clickCount (engine (step now a w));
                  duration := CONFIG.GAME.DURATION;
                  timestamp := now |} ]
        else [])
  /\ (~ (state (engine w) <> FINISHED
         /\ state (engine (step now a w)) = FINISHED) ->
      round_ends (emitted_by now a w) = []).
Proof.
  emitted_cases now a w; (split; [intros Hn Hf | intros Hnot]);
    try (cbn in Hf; congruence);
    try (exfalso; apply Hnot; split; [congruence | reflexivity]);
    rewrite ?round_ends_app; unfold opt_event;
    repeat match goal with |- context [if ?b then _ else _] => destruct b end;
    cbn; auto.
Qed.

Lemma round_end_emitted_once_witness :
  clickCount (engine (step 13100 (Fire 2%positive) (round_after 100)))
  = clickCount (engine (round_after 100))
  /\ round_ends (emitted_by 13100 (Fire 2%positive) (round_after 100))
     = if onGameEnd (engine (round_after 100))
       then [ {| score := clickCount (engine (step 13100 (Fire 2%positive)
                                                (round_after 100)));
                 duration := CONFIG.GAME.DURATION;
                 timestamp := 13100 |} ]
       else [].
Proof.
  apply (round_end_emitted_once 13100 (Fire 2%positive) (round_after 100)).
  - intros H. vm_compute in H. discriminate.
  - vm_compute. reflexivity.
Defined.



(* ------------------------------------------------------------------ *)
(** ** The round clock *)








(* ------------------------------------------------------------------ *)
(** ** Click counting *)

Lemma clickCount_in_phase now a w :
  phase_action a w = true ->
  clickCount (engine (step now a w))
  = clickCount (engine w)
    + match a with
      | RegisterClick => if decide (state (engine w) = PLAYING) then 1 else 0
      | _ => 0
      end.
Proof.
  intros Hph. step_cases now a w; cbn in Hph; rewrite ?Hfid in Hph;
    try discriminate; cbn; rewrite ?decide_True, ?decide_False by assumption; lia.
Qed.

Lemma clickCount_run acts w :
  in_phase acts w = true ->
  clickCount (engine (run acts w))
  = clickCount (engine w) + clicks_while_playing acts w.
Proof.
  revert w. induction acts as [|[now a] acts IH]; intros w Hph; cbn in *; [lia|].
  apply andb_prop in Hph as [Ha Hrest].
  rewrite (IH _ Hrest), (clickCount_in_phase now a w Ha). lia.
Qed.

Lemma run_clicks_playing now (N : nat) w :
  state (engine w) = PLAYING ->
  state (engine (run (replicate N (now, RegisterClick)) w)) = PLAYING
  /\ in_phase (replicate N (now, RegisterClick) ++ [(now, EndGame)]) w = true
  /\ clicks_while_playing (replicate N (now, RegisterClick) ++ [(now, EndGame)]) w
     = Z.of_nat N.
Proof.
  revert w. induction N as [|N IH]; intros w Hp; cbn [replicate run app in_phase
    clicks_while_playing phase_action andb].
  - cbn. auto.
  - assert (Hp' : state (engine (step now RegisterClick w)) = PLAYING)
      by (cbn; rewrite (registerClick_playing w Hp); exact Hp).
    destruct (IH _ Hp') as (H1 & H2 & H3).
    rewrite H3, decide_True by exact Hp. repeat split; auto. lia.
Qed.

(** C6: outside Playing, registerClick() returns the click count and
    changes nothing; while Playing it raises the count by exactly 1.
    Within one Playing phase (from the entry of
    startGameplay() on: clicks, decrement callbacks, endGame(), in any
    order) the click count equals the number of clicks made while Playing;
    so a phase with exactly N such clicks shows N once Finished.  Such a
    phase exists for every N. *)
Theorem clicks_are_counted :
  (forall w, state (engine w) <> PLAYING ->
     registerClick w = (clickCount (engine w), w))
  /\ (forall w, state (engine w) = PLAYING ->
        (registerClick w).1 = clickCount (engine w) + 1
        /\ clickCount (engine (registerClick w).2) = clickCount (engine w) + 1)
  /\ (forall now w acts (N : Z),
        in_phase acts (startGameplay now w) = true ->
        clicks_while_playing acts (startGameplay now w) = N ->
        state (engine (run acts (startGameplay now w))) = FINISHED ->
        clickCount (engine (run acts (startGameplay now w))) = N)
  /\ (forall now w (N : nat),
        let acts := replicate N (now, RegisterClick) ++ [(now, EndGame)] in
        in_phase acts (startGameplay now w) = true
        /\ clicks_while_playing acts (startGameplay now w) = Z.of_nat N
        /\ state (engine (run acts (startGameplay now w))) = FINISHED
        /\ clickCount (engine (run acts (startGameplay now w))) = Z.of_nat N).
Proof.
  split; [exact registerClick_not_playing|]. split.
  { intros w Hp. by rewrite (registerClick_playing w Hp). }
  split.
  - intros now w acts N Hph HN _. rewrite (clickCount_run _ _ Hph), HN.
    rewrite startGameplay_eq. cbn. lia.
  - intros now w N acts.
    assert (Hp : state (engine (startGameplay now w)) = PLAYING)
      by (rewrite startGameplay_eq; reflexivity).
    destruct (run_clicks_playing now N _ Hp) as (H1 & H2 & H3).
    split; [exact H2|]. split; [exact H3|]. split.
    + unfold acts. rewrite foldl_run_app. cbn. by rewrite (endGame_playing _ _ H1).
    + unfold acts in *. rewrite (clickCount_run _ _ H2), H3.
      rewrite startGameplay_eq. cbn. lia.
Qed.

(* ------------------------------------------------------------------ *)
(** ** startGameplay() *)

(** C10: startGameplay() checks nothing.  From any world it makes the
    engine Playing with clickCount 0, the full duration and the current
    time as start, registers a new decrement interval under a fresh
    identifier and keeps it as timerInterval, and emits the state change,
    the click count 0 and the timer update; no interval that was active is
    cancelled (the countdown handle is not even touched). *)
Theorem startGameplay_has_no_guard now w :
  state (engine (startGameplay now w)) = PLAYING
  /\ clickCount (engine (startGameplay now w)) = 0
  /\ timeLeft (engine (startGameplay now w)) = CONFIG.GAME.DURATION
  /\ gameStartTime (engine (startGameplay now w)) = Some now
  /\ timerInterval (engine (startGameplay now w)) = Some (nextId w)
  /\ countdownInterval (engine (startGameplay now w)) = countdownInterval (engine w)
  /\ timers (startGameplay now w)
     = <[nextId w := {| callback := TimerCallback;
                        delay := CONFIG.GAME.TIMER_INTERVAL |}]> (timers w)
  /\ emitted (startGameplay now w)
     = emitted w
       ++ opt_event (onStateChange (engine w)) (StateChanged PLAYING)
       ++ opt_event (onClickCountUpdate (engine w)) (ClickCountUpdated 0)
       ++ opt_event (onTimerUpdate (engine w))
            (TimerUpdated {| td_timeLeft := CONFIG.GAME.DURATION;
                             td_status := normal |})
  /\ (reachable w ->
      forall id i, timers w !! id = Some i ->
        timers (startGameplay now w) !! id = Some i).
Proof.
  rewrite startGameplay_eq. cbn. repeat split.
  intros Hw id i Hl. rewrite lookup_insert_ne; [exact Hl|].
  apply reachable_ids_fresh in Hw. specialize (Hw id). rewrite Hl in Hw.
  intros <-. specialize (Hw (mk_is_Some _ _ eq_refl)). lia.
Qed.

(** startGameplay() during the countdown and during a round: the schedule
    that was running keeps running beside the new one. *)
Lemma startGameplay_beside_running_schedule :
  (state (engine countdown_started) = COUNTDOWN
   /\ timers (startGameplay 500 countdown_started) !! 1%positive
      = Some {| callback := CountdownCallback 3; delay := 1000%float |}
   /\ timers (startGameplay 500 countdown_started) !! 2%positive
      = Some {| callback := TimerCallback; delay := 100%float |})
  /\ (state (engine (round_after 5)) = PLAYING
      /\ timers (startGameplay 3600 (round_after 5)) !! 2%positive
         = Some {| callback := TimerCallback; delay := 100%float |}
      /\ timers (startGameplay 3600 (round_after 5)) !! 3%positive
         = Some {| callback := TimerCallback; delay := 100%float |}).
Proof. repeat split; vm_compute; reflexivity. Qed.

(* ------------------------------------------------------------------ *)
(** ** The configured scenario: 10.0 s, 100 ms, countdown from 3 *)

(** C4, evaluated on the code.  The countdown subscriber receives exactly
    3, 2, 1 and the third callback enters the round with clickCount 0 and
    timeLeft 10.  From there on the decrement callback runs 100 times and
    the engine is still Playing: in binary64, subtracting 100/1000 from 10
    a hundred times leaves 1.8790524691780774e-14, which is above 0
    (0x1.528p-46 exactly).  The
    101st run ends the round. *)
Theorem configured_round_takes_101_ticks :
  countdown_ticks (emitted round_started) = [3; 2; 1]
  /\ state (engine round_started) = PLAYING
  /\ clickCount (engine round_started) = 0
  /\ timeLeft (engine round_started) = 10%float
  /\ forallb (fun n => bool_decide (state (engine (round_after n)) = PLAYING))
       (seq 0 101) = true
  /\ timeLeft (engine (round_after 100)) = 0x1.528p-46%float
  /\ (0 <? timeLeft (engine (round_after 100)))%float = true
  /\ decrement_active (round_after 100) = true
  /\ length (timer_updates (emitted (round_after 100))) = 101%nat
  /\ state (engine (round_after 101)) = FINISHED
  /\ timeLeft (engine (round_after 101)) = 0%float
  /\ map_to_list (timers (round_after 101)) = []
  /\ round_ends (emitted (round_after 101))
     = [ {| score := 0; duration := 10%float; timestamp := 13100 |} ].
Proof. repeat split; vm_compute; reflexivity. Qed.

(* ------------------------------------------------------------------ *)
(** ** Score submission *)

Lemma invalid_score_message_text :
  Web3Service.invalid_score_message = "Invalid score. Must be between 1 and 1000".
Proof. vm_compute. reflexivity. Qed.

(** C8, as stated, fails: a service without a contract (before connect(),
    or in demo mode) rejects the score 1001 with the message that no
    contract is available, not with a validation message. *)
Lemma no_contract_rejection_is_not_a_validation_error :
  Web3Service.submitScore refusing_ledger 1001 Web3Service.new
  = ({| Web3Service.success := false; Web3Service.txHash := None;
        Web3Service.error := Some "Contract not available. Running in demo mode." |},
     [])
  /\ Web3Service.error (Web3Service.submitScore refusing_ledger 1001 Web3Service.new).1
     <> Some Web3Service.invalid_score_message.
Proof. split; [vm_compute; reflexivity | vm_compute; discriminate]. Qed.

(** C8 (amended): for every score outside [1, 1000], submitScore returns a
    failure result without calling the contract; the error is the
    validation message when a contract is attached and the service is not
    in demo mode, and the contract-not-available message otherwise.  The
    submission sequence of an App with a live ledger then leaves
    localStorage as it was and reaches no contract. *)
Theorem out_of_range_score_is_rejected net score ws :
  score < CONFIG.GAME.MIN_SCORE \/ score > CONFIG.GAME.MAX_SCORE ->
  Web3Service.submitScore net score ws
  = ({| Web3Service.success := false; Web3Service.txHash := None;
        Web3Service.error :=
          Some (if Web3Service.isDemoMode ws
                   || negb (bool_decide (is_Some (Web3Service.contract ws)))
                then "Contract not available. Running in demo mode."
                else Web3Service.invalid_score_message) |},
     [])
  /\ (forall a, App.web3Service a = ws -> App.fallback_mode a = false ->
        App.localStorage (App._submitScore net score a) = App.localStorage a
        /\ App.network (App._submitScore net score a) = App.network a).
Proof.
  intros Hout.
  assert (Hval : (score <? CONFIG.GAME.MIN_SCORE) || (score >? CONFIG.GAME.MAX_SCORE) = true).
  { apply orb_true_iff. destruct Hout; [left; apply Z.ltb_lt | right; apply Z.gtb_lt]; lia. }
  assert (Hsub : Web3Service.submitScore net score ws
    = ({| Web3Service.success := false; Web3Service.txHash := None;
          Web3Service.error :=
            Some (if Web3Service.isDemoMode ws
                     || negb (bool_decide (is_Some (Web3Service.contract ws)))
                  then "Contract not available. Running in demo mode."
                  else Web3Service.invalid_score_message) |}, [])).
  { unfold Web3Service.submitScore.
    destruct (Web3Service.isDemoMode ws
              || negb (bool_decide (is_Some (Web3Service.contract ws))));
      [reflexivity | by rewrite Hval]. }
  split; [exact Hsub|].
  intros a <- Hlive. unfold App._submitScore. rewrite Hlive.
  case_decide; [done|]. unfold App.with_ui, App.called.
  cbn -[Web3Service.submitScore]. rewrite Hsub. cbn. by rewrite app_nil_r.
Qed.

Lemma out_of_range_score_is_rejected_witness :
  Web3Service.submitScore accepting_ledger 1001 live_service
  = ({| Web3Service.success := false; Web3Service.txHash := None;
        Web3Service.error :=
          Some (if Web3Service.isDemoMode live_service
                   || negb (bool_decide (is_Some (Web3Service.contract live_service)))
                then "Contract not available. Running in demo mode."
                else Web3Service.invalid_score_message) |},
     [])
  /\ (forall a, App.web3Service a = live_service -> App.fallback_mode a = false ->
        App.localStorage (App._submitScore accepting_ledger 1001 a) = App.localStorage a
        /\ App.network (App._submitScore accepting_ledger 1001 a) = App.network a).
Proof.
  apply (out_of_range_score_is_rejected accepting_ledger 1001 live_service).
  right. reflexivity.
Defined.

(** The same run, spelled out: a connected service with the contract
    attached answers 1001 with the validation message. *)
Lemma live_service_rejects_1001 :
  Web3Service.submitScore accepting_ledger 1001 live_service
  = ({| Web3Service.success := false; Web3Service.txHash := None;
        Web3Service.error := Some "Invalid score. Must be between 1 and 1000" |}, [])
  /\ App.localStorage (App._submitScore accepting_ledger 1001 (live_app None)) = None
  /\ App.network (App._submitScore accepting_ledger 1001 (live_app None)) = []
  /\ App.network (App._submitScore accepting_ledger 1000 (live_app None))
     = [ContractSubmitScore 1000; ContractGetPlayerStats "0xf00"].
Proof. repeat split; vm_compute; reflexivity. Qed.



(* ------------------------------------------------------------------ *)
(** ** The ledger contract *)

Section LedgerContract.
Import SimpleClickerScores.

Lemma max_score_snoc l e : max_score (l ++ [e]) = Z.max (max_score l) (score e).
Proof. unfold max_score. induction l as [|x l IH]; cbn; [lia|]. rewrite IH. lia. Qed.

Lemma sum_scores_snoc l e : sum_scores (l ++ [e]) = sum_scores l + score e.
Proof. unfold sum_scores. induction l as [|x l IH]; cbn; [lia|]. rewrite IH. lia. Qed.

Lemma submitScore_inv sender now clicks s s' logs :
  submitScore sender now clicks s = Ok (s', logs) ->
  0 < clicks <= 1000
  /\ totalOf sender s + clicks <= uint256_max
  /\ s' = {| playerScores :=
               <[sender := scoresOf sender s ++ [ {| score := clicks; timestamp := now |} ]]>
                 (playerScores s);
             playerBestScore :=
               <[sender := Z.max (bestOf sender s) clicks]> (playerBestScore s);
             playerTotalClicks :=
               <[sender := totalOf sender s + clicks]> (playerTotalClicks s) |}
  /\ logs = [ScoreSubmitted sender clicks now].
Proof.
  unfold submitScore.
  destruct (clicks >? 0) eqn:H0; [|discriminate].
  destruct (clicks <=? 1000) eqn:H1; [|discriminate]. cbn.
  destruct (totalOf sender s + clicks >? uint256_max) eqn:H2; [discriminate|].
  intros [= <- <-].
  apply Z.gtb_lt in H0. apply Z.leb_le in H1.
  rewrite Z.gtb_ltb in H2. apply Z.ltb_ge in H2.
  repeat split; try lia. f_equal. f_equal.
  rewrite Z.gtb_ltb. destruct (Z.ltb_spec (bestOf sender s) clicks); lia.
Qed.

Lemma submitScore_ok_effect sender now clicks s s' logs :
  submitScore sender now clicks s = Ok (s', logs) ->
  scoresOf sender s' = scoresOf sender s ++ [ {| score := clicks; timestamp := now |} ]
  /\ getScoreCount sender s' = getScoreCount sender s + 1
  /\ getScoreAtIndex sender (getScoreCount sender s) s' = Ok (clicks, now)
  /\ bestOf sender s' = Z.max (bestOf sender s) clicks
  /\ totalOf sender s' = totalOf sender s + clicks
  /\ logs = [ScoreSubmitted sender clicks now]
  /\ (forall p, p <> sender ->
        scoresOf p s' = scoresOf p s
        /\ bestOf p s' = bestOf p s
        /\ totalOf p s' = totalOf p s
        /\ getPlayerStats p s' = getPlayerStats p s).
Proof.
  intros Hok. apply submitScore_inv in Hok as (Hr & Hov & -> & ->).
  assert (Hs : forall s0 l b t,
    scoresOf sender {| playerScores := <[sender := l]> (playerScores s0);
                       playerBestScore := b; playerTotalClicks := t |} = l).
  { intros. unfold scoresOf. cbn. by rewrite lookup_insert_eq. }
  repeat split.
  - apply Hs.
  - unfold getScoreCount. rewrite Hs, length_app. cbn. lia.
  - unfold getScoreAtIndex, getScoreCount. rewrite Hs, length_app. cbn.
    assert ((Z.of_nat (length (scoresOf sender s))
             <? Z.of_nat (length (scoresOf sender s) + 1)) = true) as ->
      by (apply Z.ltb_lt; lia).
    cbn. rewrite Nat2Z.id.
    rewrite lookup_app_r by lia. by rewrite Nat.sub_diag.
  - unfold bestOf. cbn. by rewrite lookup_insert_eq.
  - unfold totalOf. cbn. by rewrite lookup_insert_eq.
  - unfold scoresOf. cbn. by rewrite lookup_insert_ne.
  - unfold bestOf. cbn. by rewrite lookup_insert_ne.
  - unfold totalOf. cbn. by rewrite lookup_insert_ne.
  - unfold getPlayerStats, scoresOf, bestOf, totalOf. cbn.
    by rewrite !lookup_insert_ne.
Qed.

(** X1.  A mined submitScore appends one entry for the caller, readable at the
    old count; raises the caller's best score to the larger of the old best
    and the new score and the caller's total by the score; logs one
    ScoreSubmitted; and leaves every other player's scores, best score and
    total as they were. *)
Theorem submitScore_touches_only_the_caller sender now clicks s s' logs :
  submitScore sender now clicks s = Ok (s', logs) ->
  scoresOf sender s' = scoresOf sender s ++ [ {| score := clicks; timestamp := now |} ]
  /\ getScoreCount sender s' = getScoreCount sender s + 1
  /\ getScoreAtIndex sender (getScoreCount sender s) s' = Ok (clicks, now)
  /\ bestOf sender s' = Z.max (bestOf sender s) clicks
  /\ totalOf sender s' = totalOf sender s + clicks
  /\ logs = [ScoreSubmitted sender clicks now]
  /\ (forall p, p <> sender ->
        scoresOf p s' = scoresOf p s
        /\ bestOf p s' = bestOf p s
        /\ totalOf p s' = totalOf p s
        /\ getPlayerStats p s' = getPlayerStats p s).
Proof. exact (submitScore_ok_effect sender now clicks s s' logs). Qed.

Lemma submitScore_touches_only_the_caller_witness :
  scoresOf 7 (exec {| tx_sender := 7; tx_time := 1700; tx_clicks := 42 |} deployed)
  = scoresOf 7 deployed ++ [ {| score := 42; timestamp := 1700 |} ]
  /\ getScoreAtIndex 7 (getScoreCount 7 deployed)
       (exec {| tx_sender := 7; tx_time := 1700; tx_clicks := 42 |} deployed)
     = Ok (42, 1700).
Proof.
  destruct (submitScore_touches_only_the_caller 7 1700 42 deployed
              (exec {| tx_sender := 7; tx_time := 1700; tx_clicks := 42 |} deployed)
              [ScoreSubmitted 7 42 1700] eq_refl)
    as (H1 & _ & H3 & _).
  split; [exact H1 | exact H3].
Defined.

(** *** What every reachable storage satisfies *)

Lemma deployed_consistent : ledger_consistent deployed.
Proof. intros p. unfold scoresOf, bestOf, totalOf. cbn. rewrite !lookup_empty. cbn. auto. Qed.

Lemma exec_cases tx s :
  (accepted tx s = false /\ exec tx s = s)
  \/ (accepted tx s = true
      /\ submitScore (tx_sender tx) (tx_time tx) (tx_clicks tx) s
         = Ok (exec tx s, [ScoreSubmitted (tx_sender tx) (tx_clicks tx) (tx_time tx)])).
Proof.
  unfold exec, accepted.
  destruct (submitScore (tx_sender tx) (tx_time tx) (tx_clicks tx) s) as [[s' logs]|r] eqn:E;
    [right | left; auto].
  split; [reflexivity|]. f_equal. f_equal. by apply submitScore_inv in E as (_ & _ & _ & ->).
Qed.

Lemma exec_consistent tx s : ledger_consistent s -> ledger_consistent (exec tx s).
Proof.
  intros Hs. destruct (exec_cases tx s) as [[_ ->] | [_ Hok]]; [exact Hs|].
  assert (Hr := Hok). apply submitScore_inv in Hr as (Hr & _).
  apply submitScore_ok_effect in Hok
    as (Hsc & _ & _ & Hb & Ht & _ & Hother).
  intros p. destruct (decide (p = tx_sender tx)) as [->|Hne].
  - destruct (Hs (tx_sender tx)) as (Hall & Hbest & Htot).
    rewrite Hsc, Hb, Ht, max_score_snoc, sum_scores_snoc, Hbest, Htot. cbn.
    repeat split; [|reflexivity..]. apply Forall_app. split; [exact Hall|].
    constructor; [cbn; lia | constructor].
  - destruct (Hother p Hne) as (-> & -> & -> & _). apply Hs.
Qed.

Lemma exec_all_consistent txs s :
  ledger_consistent s -> ledger_consistent (exec_all txs s).
Proof.
  revert s. induction txs as [|tx txs IH]; intros s Hs; cbn; [exact Hs|].
  apply IH, exec_consistent, Hs.
Qed.

Lemma exec_all_scores p txs s :
  scoresOf p (exec_all txs s) = scoresOf p s ++ accepted_entries p txs s.
Proof.
  revert s. induction txs as [|tx txs IH]; intros s; cbn; [by rewrite app_nil_r|].
  rewrite IH. destruct (exec_cases tx s) as [[Ha He] | [Ha Hok]]; rewrite Ha.
  - by rewrite He.
  - apply submitScore_ok_effect in Hok as (Hsc & _ & _ & _ & _ & _ & Hother).
    cbn. case_bool_decide as Hp.
    + subst p. rewrite Hsc. by rewrite <- app_assoc.
    + destruct (Hother p) as (-> & _); [congruence|]. reflexivity.
Qed.

Lemma sum_scores_bound l :
  Forall (fun e => 0 < score e <= 1000) l ->
  0 <= sum_scores l <= 1000 * Z.of_nat (length l).
Proof.
  unfold sum_scores. induction 1 as [|e l He _ IH]; cbn [foldr length]; lia.
Qed.

Lemma max_score_bound l :
  Forall (fun e => 0 < score e <= 1000) l ->
  0 <= max_score l <= 1000
  /\ Forall (fun e => score e <= max_score l) l
  /\ (l <> [] -> exists e, e ∈ l /\ score e = max_score l).
Proof.
  unfold max_score. induction 1 as [|e l He Hl IH]; cbn [foldr].
  - repeat split; try lia; [constructor | congruence].
  - destruct IH as (Hb & Hle & Hex). repeat split; try lia.
    + constructor; [lia|]. eapply Forall_impl; [exact Hle|]. cbn. intros; lia.
    + intros _. destruct (Z.max_spec (score e) (foldr (fun e m => Z.max (score e) m) 0 l))
        as [[Hlt Hm] | [Hge Hm]]; rewrite Hm.
      * destruct l as [|x l]; [cbn in *; lia|].
        destruct Hex as (e' & Hin & Heq); [congruence|].
        exists e'. split; [by right | exact Heq].
      * exists e. split; [by left | reflexivity].
Qed.

Lemma reachable_total_bound txs p :
  0 <= totalOf p (exec_all txs deployed)
    <= 1000 * getScoreCount p (exec_all txs deployed).
Proof.
  destruct (exec_all_consistent txs deployed deployed_consistent p) as (Hall & _ & Ht).
  rewrite Ht. unfold getScoreCount. by apply sum_scores_bound.
Qed.

(** X2.  After any sequence of submitScore transactions on a freshly deployed
    contract (reverted ones included), a player's array holds exactly the
    entries of that player's accepted transactions, in order; each score is
    in [1, 1000]; the best score is the largest recorded score (0 when there
    is none) and is one of them; the total is the sum of the recorded
    scores, so at most 1000 times their number. *)
Theorem ledger_keeps_accepted_scores txs p :
  scoresOf p (exec_all txs deployed) = accepted_entries p txs deployed
  /\ Forall (fun e => 0 < score e <= 1000) (scoresOf p (exec_all txs deployed))
  /\ bestOf p (exec_all txs deployed) = max_score (scoresOf p (exec_all txs deployed))
  /\ Forall (fun e => score e <= bestOf p (exec_all txs deployed))
       (scoresOf p (exec_all txs deployed))
  /\ (scoresOf p (exec_all txs deployed) <> [] ->
      exists e, e ∈ scoresOf p (exec_all txs deployed)
                /\ score e = bestOf p (exec_all txs deployed))
  /\ totalOf p (exec_all txs deployed) = sum_scores (scoresOf p (exec_all txs deployed))
  /\ 0 <= totalOf p (exec_all txs deployed)
       <= 1000 * getScoreCount p (exec_all txs deployed).
Proof.
  destruct (exec_all_consistent txs deployed deployed_consistent p) as (Hall & Hb & Ht).
  destruct (max_score_bound _ Hall) as (_ & Hle & Hex).
  split; [by rewrite exec_all_scores|].
  split; [exact Hall|]. split; [exact Hb|]. rewrite Hb.
  split; [exact Hle|]. split; [exact Hex|]. split; [exact Ht|].
  rewrite Ht. unfold getScoreCount. by apply sum_scores_bound.
Qed.

(** X3.  On every storage the contract can reach, a call is accepted exactly
    when the score is in [1, 1000], as long as the caller has fewer than
    2^246 recorded scores (the checked addition cannot overflow before);
    a score outside the range reverts with "Invalid score". *)
Theorem reachable_ledger_accepts_valid_scores txs sender now clicks :
  getScoreCount sender (exec_all txs deployed) < 2 ^ 246 ->
  (0 < clicks <= 1000 ->
   exists s', submitScore sender now clicks (exec_all txs deployed)
              = Ok (s', [ScoreSubmitted sender clicks now]))
  /\ (clicks <= 0 \/ 1000 < clicks ->
      submitScore sender now clicks (exec_all txs deployed) = Revert "Invalid score").
Proof.
  intros Hcount.
  destruct (reachable_total_bound txs sender) as [Hlo Hhi].
  unfold submitScore. split.
  - intros Hin.
    assert (((clicks >? 0) && (clicks <=? 1000)) = true) as ->.
    { apply andb_true_iff. rewrite Z.gtb_ltb, Z.ltb_lt, Z.leb_le. lia. }
    cbn.
    assert ((totalOf sender (exec_all txs deployed) + clicks >? uint256_max) = false) as ->;
      [|eauto].
    rewrite Z.gtb_ltb. apply Z.ltb_ge. unfold uint256_max.
    assert (1000 * 2 ^ 246 + 1000 <= 2 ^ 256 - 1) by (vm_compute; discriminate).
    lia.
  - intros Hout.
    assert (((clicks >? 0) && (clicks <=? 1000)) = false) as ->; [|reflexivity].
    apply andb_false_iff. rewrite Z.gtb_ltb, Z.ltb_ge, Z.leb_gt. lia.
Qed.

Lemma reachable_ledger_accepts_valid_scores_witness :
  (0 < 1000 <= 1000 ->
   exists s', submitScore 7 1800 1000
                (exec_all [ {| tx_sender := 7; tx_time := 1700; tx_clicks := 42 |} ] deployed)
              = Ok (s', [ScoreSubmitted 7 1000 1800]))
  /\ (1000 <= 0 \/ 1000 < 1000 ->
      submitScore 7 1800 1000
        (exec_all [ {| tx_sender := 7; tx_time := 1700; tx_clicks := 42 |} ] deployed)
      = Revert "Invalid score").
Proof.
  apply (reachable_ledger_accepts_valid_scores
           [ {| tx_sender := 7; tx_time := 1700; tx_clicks := 42 |} ] 7 1800 1000).
  vm_compute. reflexivity.
Defined.

(** *** The read functions *)

Lemma fill_lookup (g : nat -> Z) n k (acc : list Z) i :
  foldl (fun scores j => <[ j := g j ]> scores) acc (seq k n) !! i
  = if decide ((k <= i < k + n)%nat /\ (i < length acc)%nat) then Some (g i) else acc !! i.
Proof.
  revert k acc. induction n as [|n IH]; intros k acc; cbn.
  - rewrite decide_False by lia. reflexivity.
  - rewrite IH, length_insert.
    destruct (decide (i = k)) as [Heq|Hne].
    + subst i. rewrite (decide_False (P := (S k <= k < S k + n)%nat /\ _)) by lia.
      destruct (decide (k < length acc)%nat).
      * rewrite list_lookup_insert_eq by lia. by rewrite decide_True by lia.
      * rewrite list_insert_ge by lia. by rewrite decide_False by lia.
    + rewrite list_lookup_insert_ne by lia.
      destruct (decide ((S k <= i < S k + n)%nat /\ (i < length acc)%nat)).
      * by rewrite decide_True by lia.
      * by rewrite decide_False by lia.
Qed.

(** X4.  getPlayerScores returns the player's scores in the order they were
    recorded; its length is getScoreCount, which is also the totalScores
    component of getPlayerStats. *)
Theorem getPlayerScores_lists_scores_in_order p s :
  getPlayerScores p s = score <$> scoresOf p s
  /\ Z.of_nat (length (getPlayerScores p s)) = getScoreCount p s
  /\ getPlayerStats p s = (getScoreCount p s, bestOf p s, totalOf p s).
Proof.
  assert (H : getPlayerScores p s = score <$> scoresOf p s).
  { unfold getPlayerScores. apply list_eq. intros i.
    rewrite (fill_lookup (fun j => default 0 (score <$> scoresOf p s !! j))).
    rewrite length_replicate, list_lookup_fmap. cbn.
    case_decide as Hi.
    - destruct (scoresOf p s !! i) eqn:E; [reflexivity|].
      apply lookup_ge_None in E. lia.
    - rewrite !lookup_ge_None_2; [reflexivity | lia | rewrite length_replicate; lia]. }
  split; [exact H|]. split; [|reflexivity].
  rewrite H, length_fmap. reflexivity.
Qed.

(** X5.  For an index that is a uint256: getScoreAtIndex returns the entry
    recorded at that position when the index is below getScoreCount, and
    reverts with "Index out of bounds" otherwise; after any run of
    transactions on a fresh contract the entry at position [i] is the
    [i]-th accepted submission of that player. *)
Theorem getScoreAtIndex_reads_the_recorded_entry p i s :
  0 <= i ->
  (i < getScoreCount p s ->
   exists e, scoresOf p s !! Z.to_nat i = Some e
             /\ getScoreAtIndex p i s = Ok (score e, timestamp e))
  /\ (getScoreCount p s <= i ->
      getScoreAtIndex p i s = Revert "Index out of bounds")
  /\ (forall txs, s = exec_all txs deployed ->
      i < getScoreCount p s ->
      exists e, accepted_entries p txs deployed !! Z.to_nat i = Some e
                /\ getScoreAtIndex p i s = Ok (score e, timestamp e)).
Proof.
  intros Hi. unfold getScoreAtIndex, getScoreCount.
  assert (Hin : i < Z.of_nat (length (scoresOf p s)) ->
    exists e, scoresOf p s !! Z.to_nat i = Some e
              /\ (if negb (i <? Z.of_nat (length (scoresOf p s)))
                  then Revert "Index out of bounds"
                  else match scoresOf p s !! Z.to_nat i with
                       | Some entry => Ok (score entry, timestamp entry)
                       | None => Revert "Panic(0x32)"
                       end) = Ok (score e, timestamp e)).
  { intros Hlt. destruct (lookup_lt_is_Some_2 (scoresOf p s) (Z.to_nat i)) as [e He];
      [lia|].
    exists e. split; [exact He|]. rewrite He.
    by assert ((i <? Z.of_nat (length (scoresOf p s))) = true) as ->
      by (apply Z.ltb_lt; lia). }
  split; [exact Hin|]. split.
  - intros Hge.
    by assert ((i <? Z.of_nat (length (scoresOf p s))) = false) as ->
      by (apply Z.ltb_ge; lia).
  - intros txs -> Hlt.
    assert (Heq : accepted_entries p txs deployed = scoresOf p (exec_all txs deployed))
      by (by rewrite exec_all_scores).
    rewrite Heq. apply Hin, Hlt.
Qed.

Lemma getScoreAtIndex_reads_the_recorded_entry_witness :
  getScoreAtIndex 7 1 (exec_all [ {| tx_sender := 7; tx_time := 1700; tx_clicks := 42 |} ]
                         deployed)
  = Revert "Index out of bounds".
Proof.
  refine (proj1 (proj2 (getScoreAtIndex_reads_the_recorded_entry 7 1
           (exec_all [ {| tx_sender := 7; tx_time := 1700; tx_clicks := 42 |} ] deployed)
           _)) _).
  - lia.
  - vm_compute. discriminate.
Defined.

(** X6.  Whatever the client is asked to submit, a call it sends to the contract
    carries the very score it was given and passes the contract's range
    check: the contract never answers a call of the client with "Invalid
    score".  The client sends at most one call. *)
Theorem client_calls_pass_the_contract_check net sc ws sender now s :
  (length (Web3Service.submitScore net sc ws).2 <= 1)%nat
  /\ Forall (fun c => c = ContractSubmitScore sc
                      /\ submitScore sender now sc s <> Revert "Invalid score")
       (Web3Service.submitScore net sc ws).2.
Proof.
  unfold Web3Service.submitScore.
  destruct (Web3Service.isDemoMode ws
            || negb (bool_decide (is_Some (Web3Service.contract ws))));
    [cbn; split; [lia | constructor]|].
  destruct ((sc <? CONFIG.GAME.MIN_SCORE) || (sc >? CONFIG.GAME.MAX_SCORE)) eqn:Hv;
    [cbn; split; [lia | constructor]|].
  apply orb_false_iff in Hv as [H1 H2].
  unfold CONFIG.GAME.MIN_SCORE, CONFIG.GAME.MAX_SCORE in *.
  apply Z.ltb_ge in H1. rewrite Z.gtb_ltb in H2. apply Z.ltb_ge in H2.
  assert (Hok : submitScore sender now sc s <> Revert "Invalid score").
  { unfold submitScore.
    assert (((sc >? 0) && (sc <=? 1000)) = true) as ->.
    { apply andb_true_iff. rewrite Z.gtb_ltb, Z.ltb_lt, Z.leb_le. lia. }
    cbn. destruct (totalOf sender s + sc >? uint256_max); discriminate. }
  destruct (submitScore_reply net sc); cbn; (split; [lia|]); repeat constructor; exact Hok.
Qed.

End LedgerContract.

(* ------------------------------------------------------------------ *)
(** ** Further properties of the engine *)

Lemma status_of_zero : status_of 0%float = danger.
Proof. reflexivity. Qed.

Lemma status_of_DURATION : status_of CONFIG.GAME.DURATION = normal.
Proof. reflexivity. Qed.

Lemma status_matches_step now a w :
  Forall status_matches (emitted w) -> Forall status_matches (emitted (step now a w)).
Proof.
  intros He. step_cases now a w; cbn; rewrite ?Forall_app; repeat split; auto;
    apply Forall_opt_event; intros _; cbn; reflexivity.
Qed.

(** X7.  Every timer update the subscriber ever receives carries the status that
    the thresholds give for the very value it carries (danger at or below 3,
    warning above 3 and at or below 6, normal above 6): the status is
    computed at each emission, never kept from an earlier one. *)
Theorem timer_status_is_never_stale w :
  reachable w ->
  Forall status_matches (emitted w)
  /\ (forall t, status_of t = danger <-> (t <=? 3)%float = true)
  /\ (forall t, status_of t = warning <->
                (t <=? 3)%float = false /\ (t <=? 6)%float = true)
  /\ (forall t, status_of t = normal <->
                (t <=? 3)%float = false /\ (t <=? 6)%float = false).
Proof.
  intros Hw. split.
  - induction Hw as [|now a w _ IH]; [constructor | by apply status_matches_step].
  - unfold status_of. change CONFIG.GAME.DANGER_THRESHOLD with 3%float.
    change CONFIG.GAME.WARNING_THRESHOLD with 6%float.
    repeat split; intros; destruct (t <=? 3)%float, (t <=? 6)%float;
      intuition congruence.
Qed.

Lemma timer_status_is_never_stale_witness :
  Forall status_matches (emitted (round_after 101)).
Proof.
  apply (timer_status_is_never_stale (round_after 101)).
  apply in_order_reachable, round_after_in_order. lia.
Defined.

(** *** Countdown values *)

Lemma counts_bounded_without h (tm : gmap positive Interval) :
  map_Forall (fun _ i => count_bounded i) tm ->
  map_Forall (fun _ i => count_bounded i) (without h tm).
Proof. destruct h; cbn; [apply map_Forall_delete | auto]. Qed.

Lemma counts_bounded_alter c j (tm : gmap positive Interval) :
  c <= CONFIG.GAME.COUNTDOWN_START ->
  map_Forall (fun _ i => count_bounded i) tm ->
  map_Forall (fun _ i => count_bounded i)
    (alter (fun i => {| callback := CountdownCallback c; delay := delay i |}) j tm).
Proof.
  intros Hc Hb id i. rewrite lookup_alter. case_decide; [subst|apply Hb].
  destruct (tm !! id); cbn; [|discriminate]. intros [= <-]. exact Hc.
Qed.

Lemma countdown_step now a w :
  counts_bounded w /\ Forall countdown_in_range (emitted w) ->
  counts_bounded (step now a w) /\ Forall countdown_in_range (emitted (step now a w)).
Proof.
  unfold counts_bounded. intros [Hb He].
  step_cases now a w; cbn [timers emitted snd engine]; split;
    try exact Hb; try exact He;
    try (apply counts_bounded_without; try apply counts_bounded_without; exact Hb);
    try (rewrite ?Forall_app; repeat split; auto;
         apply Forall_opt_event; intros _; cbn; auto; fail).
  - apply map_Forall_insert_2; [cbn; lia | exact Hb].
  - rewrite !Forall_app. repeat split; auto; apply Forall_opt_event; intros _; cbn; auto.
    unfold CONFIG.GAME.COUNTDOWN_START. lia.
  - apply map_Forall_insert_2; [exact I | exact Hb].
  - apply counts_bounded_alter; [|exact Hb].
    apply (map_Forall_lookup_1 _ _ _ _ Hb) in Hfid. cbn in Hfid. lia.
  - rewrite Forall_app. split; [exact He|]. apply Forall_opt_event. intros _. cbn.
    apply (map_Forall_lookup_1 _ _ _ _ Hb) in Hfid. cbn in Hfid. lia.
  - apply map_Forall_insert_2; [exact I|]. apply counts_bounded_without.
    apply counts_bounded_alter; [|exact Hb].
    apply (map_Forall_lookup_1 _ _ _ _ Hb) in Hfid. cbn in Hfid. lia.
Qed.

(** X8.  Every value the countdown subscriber ever receives lies between 1 and
    the configured start value: 0 (or less) is never delivered, in any run
    of the public methods and interval callbacks. *)
Theorem countdown_never_ticks_zero w :
  reachable w -> Forall countdown_in_range (emitted w).
Proof.
  intros Hw. enough (counts_bounded w /\ Forall countdown_in_range (emitted w)) by tauto.
  induction Hw as [|now a w _ IH]; [|by apply countdown_step].
  split; [|constructor]. apply map_Forall_empty.
Qed.

Lemma countdown_never_ticks_zero_witness :
  Forall countdown_in_range (emitted round_started).
Proof.
  apply (countdown_never_ticks_zero round_started).
  apply in_order_reachable, round_started_in_order.
Defined.

(** *** The fields of the engine, state by state *)

Lemma finished_clock_runs_out e :
  timeLeft e = 0%float -> (decremented e <=? 0)%float = true.
Proof. unfold decremented. intros ->. reflexivity. Qed.

Lemma state_consistent_step now a w :
  state_consistent (engine w) -> state_consistent (engine (step now a w)).
Proof.
  unfold state_consistent. intros [Hc Hs].
  step_cases now a w; cbn [engine snd]; try (split; [exact Hc | exact Hs]);
    cbn; destruct (state (engine w)) eqn:Es; try congruence; cbn in *;
    try (intuition (eauto; lia)).
  destruct Hs as (Ht & _). apply finished_clock_runs_out in Ht.
  unfold decremented in *. cbn in *. congruence.
Qed.

(** X9.  In every world reachable through the public methods and the interval
    callbacks: the click count is never negative; an Idle engine has click
    count 0, no start time and no interval handle; a Countdown engine has
    click count 0, no start time and holds a countdown handle; a Playing
    engine holds a decrement handle and a start time; a Finished engine has
    timeLeft exactly 0, no decrement handle, and keeps its start time. *)
Theorem engine_fields_follow_the_state w :
  reachable w -> state_consistent (engine w).
Proof.
  induction 1 as [|now a w _ IH]; [|by apply state_consistent_step].
  cbn. repeat split; reflexivity.
Qed.

Lemma engine_fields_follow_the_state_witness :
  state_consistent (engine (round_after 101)).
Proof.
  apply (engine_fields_follow_the_state (round_after 101)).
  apply in_order_reachable, round_after_in_order. lia.
Defined.

(** *** After destroy() *)

Lemma unsubscribed_step now a w :
  is_subscription a = false ->
  unsubscribed (engine w) ->
  unsubscribed (engine (step now a w)) /\ emitted (step now a w) = emitted w.
Proof.
  unfold unsubscribed. intros Ha (H1 & H2 & H3 & H4 & H5).
  step_cases now a w; try discriminate; cbn [engine emitted snd];
    rewrite ?H1, ?H2, ?H3, ?H4, ?H5; cbn; rewrite ?app_nil_r; repeat split; auto.
Qed.

Lemma run_unsubscribed acts w :
  Forall (fun p => is_subscription p.2 = false) acts ->
  unsubscribed (engine w) -> emitted (run acts w) = emitted w.
Proof.
  intros Hacts. revert w.
  induction Hacts as [|[now a] acts Ha _ IH]; intros w Hu; cbn; [reflexivity|].
  destruct (unsubscribed_step now a w Ha Hu) as [Hu' He'].
  rewrite <- He'. by apply IH.
Qed.

(** X10.  destroy() empties the five subscriber slots without emitting anything,
    and from then on no method call and no interval callback delivers any
    event, until a subscriber is registered again. *)
Theorem destroy_silences_the_engine w acts :
  Forall (fun p => is_subscription p.2 = false) acts ->
  unsubscribed (engine (destroy w))
  /\ emitted (destroy w) = emitted w
  /\ emitted (run acts (destroy w)) = emitted w.
Proof.
  intros Hacts.
  assert (Hu : unsubscribed (engine (destroy w))).
  { rewrite destroy_eq. unfold unsubscribed. cbn. repeat split. }
  assert (He : emitted (destroy w) = emitted w) by (by rewrite destroy_eq).
  split; [exact Hu|]. split; [exact He|].
  rewrite <- He. by apply run_unsubscribed.
Qed.

Lemma destroy_silences_the_engine_witness :
  emitted (run [(3600, RegisterClick); (3700, Fire 2%positive); (3800, EndGame);
                (3900, Reset); (4000, StartCountdown); (5000, Fire 3%positive)]
             (destroy (round_after 5)))
  = emitted (round_after 5).
Proof.
  apply (destroy_silences_the_engine (round_after 5)
           [(3600, RegisterClick); (3700, Fire 2%positive); (3800, EndGame);
            (3900, Reset); (4000, StartCountdown); (5000, Fire 3%positive)]).
  repeat constructor.
Defined.

(** *** From Idle to Playing *)

Lemma fire_countdown now id count dl w :
  timers w !! id = Some {| callback := CountdownCallback count; delay := dl |} ->
  fire now id w = countdownTick now id count w.
Proof. intros Hl. by rewrite fire_eq, Hl. Qed.

(** X11.  From every Idle engine (the first round or a later one) startCountdown()
    followed by three runs of the countdown callback reaches Playing with
    click count 0, the full duration, the time of the third run as start
    time and no countdown handle; the engine is still in Countdown after two runs; the countdown
    interval is gone and the decrement interval is the only one added; the
    subscribers receive, in this order, the Countdown state, the ticks 3, 2,
    1, the Playing state, the click count 0 and the timer update 10. *)
Theorem countdown_always_leads_to_playing w t1 t2 t3 :
  state (engine w) = IDLE ->
  state (engine (countdown_run [t1; t2] w)) = COUNTDOWN
  /\ engine (countdown_run [t1; t2; t3] w)
     = playing_engine t3 (Pos.succ (nextId w))
         (with_countdownInterval None (engine w))
  /\ timers (countdown_run [t1; t2; t3] w)
     = <[Pos.succ (nextId w) := {| callback := TimerCallback;
                                   delay := CONFIG.GAME.TIMER_INTERVAL |}]>
         (delete (nextId w) (timers w))
  /\ emitted (countdown_run [t1; t2; t3] w)
     = emitted w
       ++ opt_event (onStateChange (engine w)) (StateChanged COUNTDOWN)
       ++ opt_event (onCountdownTick (engine w)) (CountdownTicked 3)
       ++ opt_event (onCountdownTick (engine w)) (CountdownTicked 2)
       ++ opt_event (onCountdownTick (engine w)) (CountdownTicked 1)
       ++ opt_event (onStateChange (engine w)) (StateChanged PLAYING)
       ++ opt_event (onClickCountUpdate (engine w)) (ClickCountUpdated 0)
       ++ opt_event (onTimerUpdate (engine w))
            (TimerUpdated {| td_timeLeft := CONFIG.GAME.DURATION;
                             td_status := normal |}).
Proof.
  intros Hidle. unfold countdown_run. cbn [map run step].
  rewrite (startCountdown_idle w Hidle).
  rewrite (fire_countdown t1 (nextId w) CONFIG.GAME.COUNTDOWN_START 1000%float)
    by (cbn; apply lookup_insert_eq).
  rewrite countdownTick_continue by (unfold CONFIG.GAME.COUNTDOWN_START; lia).
  cbn [engine timers nextId emitted].
  rewrite (fire_countdown t2 (nextId w) (CONFIG.GAME.COUNTDOWN_START - 1) 1000%float)
    by (cbn; rewrite lookup_alter_eq, lookup_insert_eq; reflexivity).
  rewrite countdownTick_continue by (unfold CONFIG.GAME.COUNTDOWN_START; lia).
  cbn [engine timers nextId emitted].
  split; [reflexivity|].
  rewrite (fire_countdown t3 (nextId w) (CONFIG.GAME.COUNTDOWN_START - 1 - 1) 1000%float)
    by (cbn; rewrite !lookup_alter_eq, lookup_insert_eq; reflexivity).
  rewrite countdownTick_go by (unfold CONFIG.GAME.COUNTDOWN_START; lia).
  cbn [engine timers nextId emitted with_countdownInterval with_state
       countdownInterval without].
  split; [|split].
  - reflexivity.
  - f_equal. apply map_eq. intros j.
    destruct (decide (j = nextId w)) as [->|Hne].
    + by rewrite !lookup_delete_eq.
    + by rewrite !lookup_delete_ne, !lookup_alter_ne, lookup_insert_ne.
  - unfold CONFIG.GAME.COUNTDOWN_START. cbn. by rewrite <- !app_assoc.
Qed.

Lemma countdown_always_leads_to_playing_witness :
  state (engine (countdown_run [6000; 7000] (reset round_cut_short))) = COUNTDOWN
  /\ engine (countdown_run [6000; 7000; 8000] (reset round_cut_short))
     = playing_engine 8000 (Pos.succ (nextId (reset round_cut_short)))
         (with_countdownInterval None (engine (reset round_cut_short))).
Proof.
  destruct (countdown_always_leads_to_playing (reset round_cut_short) 6000 7000 8000)
    as (H1 & H2 & _).
  - vm_compute. reflexivity.
  - split; [exact H1 | exact H2].
Defined.

(* ------------------------------------------------------------------ *)
(** ** The submission sequence, all branches *)

Section SubmissionSequence.
Import UIController.

Lemma startBtn_updateGameStatus msg ui :
  startBtn_disabled (updateGameStatus msg ui) = startBtn_disabled ui.
Proof. reflexivity. Qed.

(** X12.  However the submission sequence ends (saved locally, nothing to submit,
    stored on the ledger, refused by the client or by the ledger), the start
    control is enabled when it returns. *)
Theorem submission_always_reenables_start net score a :
  startBtn_disabled (App.uiController (App._submitScore net score a)) = false.
Proof.
  unfold App._submitScore.
  destruct (App.fallback_mode a); [reflexivity|].
  case_decide; [reflexivity|].
  destruct (Web3Service.submitScore net score
              (App.web3Service
                 (App.with_ui (updateStorageStatus "Storing on blockchain...")
                    (App.with_ui (updateGameStatus "Storing on blockchain...") a))))
    as [result calls].
  reflexivity.
Qed.

Lemma live_not_fallback addr a :
  live_with_wallet addr (App.web3Service a) -> App.fallback_mode a = false.
Proof.
  intros (Hd & Hc & _). unfold App.fallback_mode. rewrite Hd. cbn.
  by rewrite bool_decide_eq_true_2.
Qed.

Lemma live_getPlayerStats net addr ws :
  live_with_wallet addr ws ->
  Web3Service.getPlayerStats net None ws
  = match getPlayerStats_reply net addr with
    | inl st => ({| Web3Service.s_success := true; Web3Service.stats := Some st;
                    Web3Service.s_error := None |}, [ContractGetPlayerStats addr])
    | inr e => ({| Web3Service.s_success := false; Web3Service.stats := None;
                   Web3Service.s_error :=
                     Some (or_else (message e) "Failed to load player stats") |},
                [ContractGetPlayerStats addr])
    end.
Proof.
  intros (Hd & Hc & Hw & Hne). unfold Web3Service.getPlayerStats.
  rewrite Hw, Hd. cbn [first_truthy orb].
  destruct addr as [|c addr]; [done|].
  by rewrite bool_decide_eq_true_2.
Qed.

Lemma live_submitScore net addr score ws :
  live_with_wallet addr ws ->
  1 <= score <= 1000 ->
  Web3Service.submitScore net score ws
  = match submitScore_reply net score with
    | TxMined h =>
        ({| Web3Service.success := true; Web3Service.txHash := Some h;
            Web3Service.error := None |}, [ContractSubmitScore score])
    | TxThrown e =>
        ({| Web3Service.success := false; Web3Service.txHash := None;
            Web3Service.error :=
              Some (or_else (reason e)
                      (or_else (message e) "Failed to submit score")) |},
         [ContractSubmitScore score])
    end.
Proof.
  intros (Hd & Hc & _) Hr. unfold Web3Service.submitScore. rewrite Hd. cbn.
  rewrite bool_decide_eq_true_2 by exact Hc. cbn.
  assert (((score <? CONFIG.GAME.MIN_SCORE) || (score >? CONFIG.GAME.MAX_SCORE)) = false) as ->.
  { apply orb_false_iff. unfold CONFIG.GAME.MIN_SCORE, CONFIG.GAME.MAX_SCORE.
    rewrite Z.ltb_ge, Z.gtb_ltb, Z.ltb_ge. lia. }
  reflexivity.
Qed.

Lemma live_loadPlayerStats net addr a :
  live_with_wallet addr (App.web3Service a) ->
  App._loadPlayerStats net a
  = App.with_ui
      (updateStats match getPlayerStats_reply net addr with
                   | inl st => st
                   | inr _ => App.zeroStats
                   end)
      (App.called [ContractGetPlayerStats addr] a).
Proof.
  intros Hlive. unfold App._loadPlayerStats.
  rewrite (live_not_fallback addr a Hlive), (live_getPlayerStats net addr _ Hlive).
  destruct (getPlayerStats_reply net addr); reflexivity.
Qed.

(** X13.  With the contract attached and a wallet address that is not the
    empty text, the submission sequence never writes localStorage and never
    changes the service.  A
    score of 0 reaches no contract and reports that there is nothing to
    submit.  A score in [1, 1000] makes exactly one submitScore call; when
    the transaction is mined the stats are read back from the ledger once
    and the panel shows what the ledger answered (zeros when that read
    fails); when the call throws, no stats are read, the panel keeps its
    texts and the last alert carries the error's reason, or else its
    message, or else "Failed to submit score". *)
Theorem live_submission_sequence net addr score a :
  live_with_wallet addr (App.web3Service a) ->
  App.localStorage (App._submitScore net score a) = App.localStorage a
  /\ App.web3Service (App._submitScore net score a) = App.web3Service a
  /\ (score = 0 ->
      App.network (App._submitScore net score a) = App.network a
      /\ storageStatus_text (App.uiController (App._submitScore net score a))
         = "No score to submit (0 clicks)"
      /\ panel (App.uiController (App._submitScore net score a))
         = panel (App.uiController a))
  /\ (1 <= score <= 1000 ->
      match submitScore_reply net score with
      | TxMined h =>
          App.network (App._submitScore net score a)
          = App.network a ++ [ContractSubmitScore score; ContractGetPlayerStats addr]
          /\ storageStatus_text (App.uiController (App._submitScore net score a))
             = "✅ Score stored on-chain!"
          /\ panel (App.uiController (App._submitScore net score a))
             = match getPlayerStats_reply net addr with
               | inl st => (text_or_zero (bestScore st), text_or_zero (totalScores st),
                            text_or_zero (totalClicks st), text_or_zero (totalScores st))
               | inr _ => ("0", "0", "0", "0")
               end
      | TxThrown e =>
          App.network (App._submitScore net score a)
          = App.network a ++ [ContractSubmitScore score]
          /\ storageStatus_text (App.uiController (App._submitScore net score a))
             = "❌ Failed to store score"
          /\ panel (App.uiController (App._submitScore net score a))
             = panel (App.uiController a)
          /\ last_alert (App.uiController (App._submitScore net score a))
             = Some ("Failed to submit score: "
                       +:+ or_else (reason e)
                             (or_else (message e) "Failed to submit score"),
                     ERROR)
      end).
Proof.
  intros Hlive. assert (Hfb := live_not_fallback addr a Hlive).
  unfold App._submitScore. rewrite Hfb.
  destruct (decide (score = 0)) as [->|Hnz]; [repeat split; lia|].
  assert (Hsub : exists r calls,
    Web3Service.submitScore net score (App.web3Service a) = (r, calls)) by
    (destruct (Web3Service.submitScore net score (App.web3Service a)); eauto).
  destruct Hsub as (r & calls & Hsub).
  change (App.web3Service
            (App.with_ui (updateStorageStatus "Storing on blockchain...")
               (App.with_ui (updateGameStatus "Storing on blockchain...") a)))
    with (App.web3Service a).
  split; [|split; [|split; [lia|]]].
  - rewrite Hsub. destruct (Web3Service.success r); [|reflexivity].
    rewrite (live_loadPlayerStats net addr) by exact Hlive. reflexivity.
  - rewrite Hsub. destruct (Web3Service.success r); [|reflexivity].
    rewrite (live_loadPlayerStats net addr) by exact Hlive. reflexivity.
  - intros Hr. rewrite (live_submitScore net addr score _ Hlive Hr).
    destruct (submitScore_reply net score) as [h|e]; cbn [Web3Service.success].
    + rewrite (live_loadPlayerStats net addr) by exact Hlive.
      cbn. rewrite <- app_assoc. repeat split.
      destruct (getPlayerStats_reply net addr); reflexivity.
    + cbn. repeat split. unfold last_alert. cbn. by rewrite last_snoc.
Qed.

Lemma live_submission_sequence_witness :
  App.localStorage (App._submitScore accepting_ledger 250 (live_app None)) = None
  /\ App.web3Service (App._submitScore accepting_ledger 250 (live_app None)) = live_service.
Proof.
  destruct (live_submission_sequence accepting_ledger "0xf00" 250 (live_app None))
    as (H1 & H2 & _).
  - unfold live_with_wallet. cbn. repeat split; [eauto | discriminate].
  - split; [exact H1 | exact H2].
Defined.

End SubmissionSequence.

(* ------------------------------------------------------------------ *)
(** ** The local fallback store over many rounds *)

Section FallbackStore.
Import UIController.







End FallbackStore.

(* ------------------------------------------------------------------ *)
(** ** Reading from the ledger *)

(** X15.  The two read operations take as target the address they are
    given, or the wallet address when none or the empty text is given; null
    and the empty text count as no address.  They reach the contract at
    most once, for that target, and only when there is a target and an
    attached contract outside demo mode; without a target they answer "No
    wallet address available" and make no call.  They report success only
    when the contract answered, and a failure carries a message and no
    data. *)
Theorem reads_need_address_and_contract net reply address ws :
  (let r := Web3Service.getPlayerStats net address ws in
   (r.2 <> [] ->
    Web3Service.isDemoMode ws = false /\ is_Some (Web3Service.contract ws)
    /\ exists target,
         target <> "" /\ r.2 = [ContractGetPlayerStats target]
         /\ (address = Some target
             \/ ((address = None \/ address = Some "")
                 /\ Web3Service.walletAddress ws = Some target)))
   /\ ((address = None \/ address = Some "") ->
       (Web3Service.walletAddress ws = None \/ Web3Service.walletAddress ws = Some "") ->
       r = ({| Web3Service.s_success := false; Web3Service.stats := None;
               Web3Service.s_error := Some "No wallet address available" |}, []))
   /\ (Web3Service.s_success r.1 = true -> r.2 <> [] /\ is_Some (Web3Service.stats r.1))
   /\ (Web3Service.s_success r.1 = false ->
       Web3Service.stats r.1 = None /\ is_Some (Web3Service.s_error r.1)))
  /\ (let r := Web3ServiceReads.getPlayerScores reply address ws in
      (r.2 <> [] ->
       Web3Service.isDemoMode ws = false /\ is_Some (Web3Service.contract ws)
       /\ exists target,
            target <> "" /\ r.2 = [target]
            /\ (address = Some target
                \/ ((address = None \/ address = Some "")
                    /\ Web3Service.walletAddress ws = Some target)))
      /\ ((address = None \/ address = Some "") ->
          (Web3Service.walletAddress ws = None \/ Web3Service.walletAddress ws = Some "") ->
          r = ({| Web3ServiceReads.sc_success := false; Web3ServiceReads.scores := None;
                  Web3ServiceReads.sc_error := Some "No wallet address available" |}, []))
      /\ (Web3ServiceReads.sc_success r.1 = true ->
          r.2 <> [] /\ is_Some (Web3ServiceReads.scores r.1))
      /\ (Web3ServiceReads.sc_success r.1 = false ->
          Web3ServiceReads.scores r.1 = None
          /\ is_Some (Web3ServiceReads.sc_error r.1))).
Proof.
  unfold Web3Service.getPlayerStats, Web3ServiceReads.getPlayerScores.
  split; cbn zeta.
  - destruct address as [[|c a]|], (Web3Service.walletAddress ws) as [[|c' wa]|],
      (Web3Service.isDemoMode ws), (Web3Service.contract ws) as [k|];
      cbn [first_truthy orb negb bool_decide fst snd];
      rewrite ?bool_decide_eq_true_2, ?bool_decide_eq_false_2
        by (try (eexists; reflexivity); intros [? ?]; discriminate);
      cbn [negb orb];
      try destruct (getPlayerStats_reply net _); cbn;
      (repeat split; eauto; try congruence;
       try (intros; eexists; repeat split; [discriminate | eauto]);
       try (intros [?|?] [?|?]; congruence)).
  - destruct address as [[|c a]|], (Web3Service.walletAddress ws) as [[|c' wa]|],
      (Web3Service.isDemoMode ws), (Web3Service.contract ws) as [k|];
      cbn [first_truthy orb negb bool_decide fst snd];
      rewrite ?bool_decide_eq_true_2, ?bool_decide_eq_false_2
        by (try (eexists; reflexivity); intros [? ?]; discriminate);
      cbn [negb orb];
      try destruct (reply _); cbn;
      (repeat split; eauto; try congruence;
       try (intros; eexists; repeat split; [discriminate | eauto]);
       try (intros [?|?] [?|?]; congruence)).
Qed.

(* ------------------------------------------------------------------ *)
(** ** Shortened addresses *)

Lemma substring_0_app p r : String.substring 0 (String.length p) (p +:+ r) = p.
Proof.
  induction p as [|c p IH]; simpl; [by destruct r|]. f_equal. exact IH.
Qed.

Lemma substring_skip_app p r n :
  String.substring (String.length p) n (p +:+ r) = String.substring 0 n r.
Proof. induction p as [|c p IH]; simpl; [reflexivity | exact IH]. Qed.

Lemma substring_0_short n s :
  (String.length s <= n)%nat -> String.substring 0 n s = s.
Proof.
  revert n. induction s as [|c s IH]; intros n Hn; simpl in *; [by destruct n|].
  destruct n as [|n]; [lia|]. rewrite IH by lia. reflexivity.
Qed.

Lemma app_assoc_string p q r : p +:+ (q +:+ r) = (p +:+ q) +:+ r.
Proof.
  induction p as [|c p IH]; [reflexivity|].
  change (String c (p +:+ (q +:+ r)) = String c ((p +:+ q) +:+ r)). by rewrite IH.
Qed.

Lemma length_app_string p r :
  String.length (p +:+ r) = (String.length p + String.length r)%nat.
Proof.
  induction p as [|c p IH]; [reflexivity|].
  change (S (String.length (p +:+ r)) = S (String.length p + String.length r)).
  by rewrite IH.
Qed.

(** X16.  The shortened address keeps the first six and the last four characters
    around "...": an address made of a 6-character head, any middle and a
    4-character tail shows as head...tail (13 characters).  A text of at
    most four characters is shown twice, around the dots.  A service
    without a wallet address has no shortened address. *)
Theorem formatted_address_keeps_both_ends :
  (forall head middle tail,
     String.length head = 6%nat -> String.length tail = 4%nat ->
     _formatAddress (head +:+ middle +:+ tail) = head +:+ "..." +:+ tail
     /\ String.length (_formatAddress (head +:+ middle +:+ tail)) = 13%nat)
  /\ (forall s, (String.length s <= 4)%nat ->
        _formatAddress s = s +:+ "..." +:+ s)
  /\ (forall ws, Web3Service.walletAddress ws = None ->
        getFormattedAddress ws = None)
  /\ (forall ws, getFormattedAddress (Web3ServiceReads._reset ws) = None).
Proof.
  split; [|split; [|split]].
  - intros head middle tail Hh Ht.
    assert (Heq : _formatAddress (head +:+ middle +:+ tail) = head +:+ "..." +:+ tail).
    { unfold _formatAddress, slice_start, slice_end. f_equal; [|f_equal].
      - rewrite <- Hh. apply substring_0_app.
      - rewrite !length_app_string, Hh, Ht.
        replace (6 + (String.length middle + 4) - 4)%nat
          with (String.length (head +:+ middle))
          by (rewrite length_app_string, Hh; lia).
        rewrite app_assoc_string, substring_skip_app.
        apply substring_0_short. lia. }
    split; [exact Heq|]. rewrite Heq, !length_app_string, Hh, Ht. reflexivity.
  - intros s Hs. unfold _formatAddress, slice_start, slice_end.
    replace (String.length s - 4)%nat with 0%nat by lia.
    rewrite !substring_0_short by lia. reflexivity.
  - intros ws Hw. unfold getFormattedAddress. by rewrite Hw.
  - intros ws. reflexivity.
Qed.

(* ------------------------------------------------------------------ *)
(** ** The App's handlers over the engine and the page *)

Section PageWiring.

Lemma app_step_world now a s :
  (app_step now a s).1
  = match engine_action a with
    | Some a' => step now a' s.1
    | None => s.1
    end.
Proof.
  destruct s as [w p], a as [[|] | | | id]; cbn; try reflexivity.
  unfold _handleClick, isPlaying; cbn.
  destruct (decide (state (engine w) = PLAYING)) as [Hp|Hp].
  - by rewrite bool_decide_eq_true_2.
  - rewrite bool_decide_eq_false_2 by done.
    by rewrite registerClick_not_playing.
Qed.

Lemma engine_action_not_startGameplay a a' :
  engine_action a = Some a' -> a' <> StartGameplay.
Proof. destruct a as [[|] | | | id]; cbn; congruence. Qed.

Lemma idle_subscribed_in_order : reachable_in_order idle_subscribed.
Proof.
  unfold idle_subscribed. apply in_order_run; [apply in_order_new|].
  vm_compute; reflexivity.
Qed.

Lemma app_step_in_order now a s :
  reachable_in_order s.1 -> reachable_in_order (app_step now a s).1.
Proof.
  intros Hr. rewrite app_step_world.
  destruct (engine_action a) as [a'|] eqn:Ea; [|exact Hr].
  constructor; [exact Hr|]. intros [-> _].
  by apply engine_action_not_startGameplay in Ea.
Qed.

(** X17.  The App drives the engine only through startCountdown(),
    registerClick() (behind its isPlaying() test) and reset(); with the
    interval callbacks these are all that ever acts on its engine.  Hence,
    whatever the user presses and whenever the intervals fire,
    startGameplay() is never entered from outside while a schedule is
    active, and at most one schedule, held by the engine, is active. *)
Theorem app_never_overlaps_schedules (acts : list (Z * UserAction)) (p : GamePage.t) :
  reachable_in_order (app_run acts (app_init p)).1
  /\ one_schedule (app_run acts (app_init p)).1.
Proof.
  assert (H : reachable_in_order (app_run acts (app_init p)).1).
  { assert (H0 : reachable_in_order (app_init p).1) by apply idle_subscribed_in_order.
    revert H0. generalize (app_init p). induction acts as [|[now a] acts IH];
      intros s Hs; cbn; [exact Hs|].
    apply IH. by apply app_step_in_order. }
  split; [exact H | by apply in_order_one_schedule].
Qed.

Lemma calling_same (f : World -> World) w p :
  f w = w -> calling f (w, p) = (w, p).
Proof. intros E. unfold calling; cbn. by rewrite E, drop_all. Qed.

Lemma calling_emits (f : World -> World) w p evs :
  emitted (f w) = emitted w ++ evs ->
  calling f (w, p) = (f w, foldl deliver p evs).
Proof. intros E. unfold calling; cbn. by rewrite E, drop_app_length. Qed.

Ltac page_goal :=
  unfold page_follows_engine, GamePage.resetGameUI, GamePage.setClickButtonEnabled,
    GamePage.updateClickCount, GamePage.hideResultsModal, GamePage.showCountdown,
    GamePage.hideCountdown, GamePage.updateCountdown, GamePage.showResultsModal,
    _handleGameStateChange in *;
  cbn in *;
  repeat split; intros; try congruence; try tauto; intuition congruence.

Lemma app_inv_step now a s : app_inv s -> app_inv (app_step now a s).
Proof.
  intros (Hsub & Hone & Hpage).
  assert (Hone' : one_schedule (app_step now a s).1).
  { rewrite app_step_world. destruct (engine_action a) as [a'|] eqn:Ea; [|exact Hone].
    apply one_schedule_step; [exact Hone|]. intros [-> _].
    by apply engine_action_not_startGameplay in Ea. }
  destruct s as [w p]. destruct Hsub as (Hsc & Htu & Hcc & Hct & Hge).
  cbn [fst snd] in *.
  destruct a as [[|] | | | id]; cbn [app_step] in *.
  - (* Start, connected *)
    unfold _handleStartGame in *; cbn [negb fst snd] in *.
    destruct (decide (state (engine w) = IDLE)) as [Hst|Hst].
    + rewrite (calling_emits startCountdown w _
                 [StateChanged COUNTDOWN; CountdownTicked CONFIG.GAME.COUNTDOWN_START]) in *
        by (rewrite (startCountdown_idle w Hst); cbn; by rewrite Hsc, Hct).
      split; [|split; [exact Hone'|]];
        rewrite (startCountdown_idle w Hst); cbn;
        [unfold subscribed; cbn; auto|].
      page_goal.
    + rewrite (calling_same startCountdown) in * by by apply startCountdown_not_idle.
      split; [done|split; [exact Hone'|]]. page_goal.
  - (* Start, no wallet *)
    unfold _handleStartGame; cbn. done.
  - (* Click *)
    unfold _handleClick, isPlaying in *; cbn [fst snd] in *.
    destruct (decide (state (engine w) = PLAYING)) as [Hst|Hst].
    + rewrite bool_decide_eq_true_2 in * by done.
      rewrite (calling_emits (fun w => (registerClick w).2) w _
                 [ClickCountUpdated (clickCount (engine w) + 1)]) in *
        by (rewrite (registerClick_playing w Hst); cbn; by rewrite Hcc).
      split; [|split; [exact Hone'|]];
        rewrite (registerClick_playing w Hst); cbn;
        [unfold subscribed; cbn; auto|].
      page_goal.
    + rewrite bool_decide_eq_false_2 in * by done. done.
  - (* Play again *)
    unfold _handlePlayAgain in *; cbn [fst snd] in *.
    rewrite (calling_emits reset w _ [StateChanged IDLE]) in *
      by (rewrite (reset_eq w); cbn; by rewrite Hsc).
    cbn [fst snd] in *.
    split; [|split; [exact Hone'|]];
      rewrite (reset_eq w); cbn; [unfold subscribed; cbn; auto|].
    page_goal.
  - (* An interval fires *)
    destruct Hone as [He | [(i & c & d & Ht & Hci & Hs) | (i & d & Ht & Hti & Hs)]].
    + rewrite (calling_same (fire now id)) in * by by apply fire_no_timers.
      done.
    + destruct (decide (id = i)) as [->|Hne].
      2:{ assert (E : fire now id w = w)
            by (rewrite fire_eq, Ht, lookup_singleton_ne by done; done).
          rewrite (calling_same (fire now id)) in * by exact E.
          split; [done|split; [exact Hone'|done]]. }
      assert (E : fire now i w = countdownTick now i c w)
        by (rewrite fire_eq, Ht, lookup_singleton_eq; done).
      destruct (Z_lt_le_dec 0 (c - 1)) as [Hc|Hc].
      * rewrite (calling_emits (fire now i) w _ [CountdownTicked (c - 1)]) in *
          by (rewrite E, (countdownTick_continue now i c w Hc); cbn; by rewrite Hct).
        split; [|split; [exact Hone'|]];
          rewrite E, (countdownTick_continue now i c w Hc); cbn;
          [unfold subscribed; cbn; auto|].
        page_goal.
      * rewrite (calling_emits (fire now i) w _
                   [StateChanged PLAYING; ClickCountUpdated 0;
                    TimerUpdated {| td_timeLeft := CONFIG.GAME.DURATION;
                                    td_status := normal |}]) in *
          by (rewrite E, (countdownTick_go now i c w Hc); cbn;
              by rewrite Hsc, Hcc, Htu).
        split; [|split; [exact Hone'|]];
          rewrite E, (countdownTick_go now i c w Hc); cbn;
          [unfold subscribed; cbn; auto|].
        page_goal.
    + destruct (decide (id = i)) as [->|Hne].
      2:{ assert (E : fire now id w = w)
            by (rewrite fire_eq, Ht, lookup_singleton_ne by done; done).
          rewrite (calling_same (fire now id)) in * by exact E.
          split; [done|split; [exact Hone'|done]]. }
      assert (E : fire now i w = timerTick now w)
        by (rewrite fire_eq, Ht, lookup_singleton_eq; done).
      destruct (decremented (engine w) <=? 0)%float eqn:Hdec.
      * rewrite (calling_emits (fire now i) w _
                   [StateChanged FINISHED;
                    TimerUpdated {| td_timeLeft := 0%float; td_status := danger |};
                    RoundEnded {| score := clickCount (engine w);
                                  duration := CONFIG.GAME.DURATION;
                                  timestamp := now |};
                    TimerUpdated {| td_timeLeft := 0%float; td_status := danger |}]) in *
          by (rewrite E, (timerTick_expired_playing now w Hdec Hs); cbn;
              by rewrite Hsc, Htu, Hge).
        split; [|split; [exact Hone'|]];
          rewrite E, (timerTick_expired_playing now w Hdec Hs); cbn;
          [unfold subscribed; cbn; auto|].
        page_goal.
      * rewrite (calling_emits (fire now i) w _
                   [TimerUpdated
                      {| td_timeLeft := decremented (engine w);
                         td_status := getTimerStatus
                           (with_timeLeft (decremented (engine w)) (engine w)) |}]) in *
          by (rewrite E, (timerTick_running now w Hdec); cbn; by rewrite Htu).
        split; [|split; [exact Hone'|]];
          rewrite E, (timerTick_running now w Hdec); cbn;
          [unfold subscribed; cbn; auto|].
        page_goal.
Qed.

Lemma app_inv_run acts s : app_inv s -> app_inv (app_run acts s).
Proof.
  revert s. induction acts as [|[now a] acts IH]; intros s Hs; cbn; [exact Hs|].
  apply IH. by apply app_inv_step.
Qed.

Lemma idle_subscribed_engine :
  subscribed (engine idle_subscribed) /\ state (engine idle_subscribed) = IDLE.
Proof. vm_compute. repeat split. Qed.

(** X18.  On a page that starts with the click button disabled and the
    results modal hidden, whatever is pressed (Start with or without a
    wallet, the click button, Play Again) and whenever the intervals fire:
    the click button is enabled exactly while the engine is Playing; the
    results modal is shown exactly while the engine is Finished, and then
    shows the engine's click count as final score; during Playing and
    Finished the click counter on the page is the engine's click count;
    during the countdown the overlay is shown. *)
Theorem page_follows_the_engine (acts : list (Z * UserAction)) (p : GamePage.t) :
  GamePage.clickBtn_disabled p = true ->
  GamePage.modal_shown p = false ->
  page_follows_engine (app_run acts (app_init p)).
Proof.
  intros Hc Hm.
  assert (H0 : app_inv (app_init p)).
  { destruct idle_subscribed_engine as [Hsub Hst].
    split; [exact Hsub|]. split; [apply in_order_one_schedule, idle_subscribed_in_order|].
    unfold page_follows_engine, app_init; cbn [fst snd]. rewrite Hst, Hc, Hm.
    repeat split; intros; try congruence; intuition congruence. }
  apply (app_inv_run acts) in H0. apply H0.
Qed.

Lemma page_follows_the_engine_witness :
  page_follows_engine
    (app_run [(0, PressStart true); (1000, IntervalFires 1%positive);
              (2000, IntervalFires 1%positive); (3000, IntervalFires 1%positive);
              (3050, PressClick); (3080, PressClick)]
       (app_init blank_page)).
Proof. apply page_follows_the_engine; reflexivity. Defined.

(** X19.  Start pressed with a connected wallet while the engine is not
    Idle: startCountdown() refuses, the engine stays exactly as it was and
    nothing is delivered to the subscribers, but the page has already been
    changed: the countdown overlay is shown with the number 3 (and only
    the next entry into Playing takes it away). *)
Theorem start_outside_idle_only_shows_overlay (s : World * GamePage.t) :
  state (engine s.1) <> IDLE ->
  _handleStartGame true s
  = (s.1, GamePage.showCountdown CONFIG.GAME.COUNTDOWN_START s.2)
  /\ GamePage.countdown_shown (_handleStartGame true s).2 = true
  /\ GamePage.countdownNumber (_handleStartGame true s).2 = Some 3.
Proof.
  intros Hst. destruct s as [w p]. unfold _handleStartGame; cbn [negb fst snd].
  rewrite (calling_same startCountdown) by by apply startCountdown_not_idle.
  repeat split.
Qed.

Lemma start_outside_idle_only_shows_overlay_witness :
  _handleStartGame true (round_cut_short, blank_page)
  = ((round_cut_short, blank_page).1,
     GamePage.showCountdown CONFIG.GAME.COUNTDOWN_START (round_cut_short, blank_page).2)
  /\ GamePage.countdown_shown (_handleStartGame true (round_cut_short, blank_page)).2 = true
  /\ GamePage.countdownNumber (_handleStartGame true (round_cut_short, blank_page)).2 = Some 3.
Proof.
  apply (start_outside_idle_only_shows_overlay (round_cut_short, blank_page)).
  vm_compute; discriminate.
Defined.

(** X20.  Play Again, in every state of engine and page and with any
    subscribers: afterwards the engine is Idle with click count 0, full
    time and no handle, the results modal is hidden, the click button is
    disabled and the click counter shows 0.  The countdown overlay is left
    as it was: neither reset() nor resetGameUI() hides it. *)
Theorem play_again_restores_the_start_screen (s : World * GamePage.t) :
  let s' := _handlePlayAgain s in
  engine s'.1 = idle_engine (engine s.1)
  /\ GamePage.modal_shown s'.2 = false
  /\ GamePage.clickBtn_disabled s'.2 = true
  /\ GamePage.clickCount_text s'.2 = Some 0
  /\ GamePage.countdown_shown s'.2 = GamePage.countdown_shown s.2.
Proof.
  destruct s as [w p]. cbn zeta. unfold _handlePlayAgain; cbn [fst snd].
  rewrite (calling_emits reset w _
             (opt_event (onStateChange (engine w)) (StateChanged IDLE)))
    by (rewrite (reset_eq w); reflexivity).
  cbn [fst snd]. rewrite (reset_eq w); cbn [engine].
  destruct (onStateChange (engine w)); cbn; repeat split.
Qed.

End PageWiring.
